(** * MD_REncoder: the quadrature decoder and its speed estimator

    Shallow embedding of [src/MD_REncoder.cpp] and of the class declared in
    [MD_REncoder.h]: the two transition tables, the constructor, [read],
    [setPeriod] and [speed].  Machine integers are [Z] with the wrap-around
    of their C++ type written out; a table access outside the table and a
    division by zero are failures ([None]). *)

From Stdlib Require Import ZArith List Bool Lia.
From Stdlib Require Ascii String.
Import ListNotations Ascii.AsciiSyntax String.StringSyntax.
Delimit Scope char_scope with char.
Delimit Scope string_scope with string.
Local Open Scope Z_scope.

(** ** Machine integers *)

Definition wrap16 (z : Z) : Z := z mod 2 ^ 16.
Definition wrap32 (z : Z) : Z := z mod 2 ^ 32.

Definition is_uint8  (z : Z) : Prop := 0 <= z < 2 ^ 8.
Definition is_uint16 (z : Z) : Prop := 0 <= z < 2 ^ 16.
Definition is_uint32 (z : Z) : Prop := 0 <= z < 2 ^ 32.

(** ** Compile time switches and constants of MD_REncoder.h *)

(** [ENABLE_HALF_STEP]: which of the two tables is compiled in. *)
Inductive step_mode : Type :=
| FullStep   (* ENABLE_HALF_STEP 0, the default *)
| HalfStep.  (* ENABLE_HALF_STEP 1 *)

Definition DEFAULT_PERIOD : Z := 500.

Definition DIR_NONE : Z := 0x00.
Definition DIR_CW   : Z := 0x10.
Definition DIR_CCW  : Z := 0x20.

Definition R_START : Z := 0x0.

(** ** The transition tables; columns are the pin states 00, 01, 10, 11 *)

Module Half.
Definition R_CCW_BEGIN   : Z := 0x1.
Definition R_CW_BEGIN    : Z := 0x2.
Definition R_START_M     : Z := 0x3.
Definition R_CW_BEGIN_M  : Z := 0x4.
Definition R_CCW_BEGIN_M : Z := 0x5.

Definition ttable : list (list Z) :=
  (*  00                           01             10            11 *)
  [ [R_START_M;                   R_CW_BEGIN;    R_CCW_BEGIN;  R_START];
    [Z.lor R_START_M DIR_CCW;     R_START;       R_CCW_BEGIN;  R_START];
    [Z.lor R_START_M DIR_CW;      R_CW_BEGIN;    R_START;      R_START];
    [R_START_M;                   R_CCW_BEGIN_M; R_CW_BEGIN_M; R_START];
    [R_START_M;                   R_START_M;     R_CW_BEGIN_M; Z.lor R_START DIR_CW];
    [R_START_M;                   R_CCW_BEGIN_M; R_START_M;    Z.lor R_START DIR_CCW] ].
End Half.

Module Full.
Definition R_CW_FINAL  : Z := 0x1.
Definition R_CW_BEGIN  : Z := 0x2.
Definition R_CW_NEXT   : Z := 0x3.
Definition R_CCW_BEGIN : Z := 0x4.
Definition R_CCW_FINAL : Z := 0x5.
Definition R_CCW_NEXT  : Z := 0x6.

Definition ttable : list (list Z) :=
  (*  00          01           10           11 *)
  [ [R_START;    R_CW_BEGIN;  R_CCW_BEGIN; R_START];
    [R_CW_NEXT;  R_START;     R_CW_FINAL;  Z.lor R_START DIR_CW];
    [R_CW_NEXT;  R_CW_BEGIN;  R_START;     R_START];
    [R_CW_NEXT;  R_CW_BEGIN;  R_CW_FINAL;  R_START];
    [R_CCW_NEXT; R_START;     R_CCW_BEGIN; R_START];
    [R_CCW_NEXT; R_CCW_FINAL; R_START;     Z.lor R_START DIR_CCW];
    [R_CCW_NEXT; R_CCW_FINAL; R_CCW_BEGIN; R_START] ].
End Full.

Definition ttable (m : step_mode) : list (list Z) :=
  match m with
  | FullStep => Full.ttable
  | HalfStep => Half.ttable
  end.

(** Number of rows of the compiled table. *)
Definition rows (m : step_mode) : Z := Z.of_nat (length (ttable m)).

(** [ttable[row][col]]; an access outside the array has no value. *)
Definition ttable_at (m : step_mode) (row col : Z) : option Z :=
  if (row <? 0) || (col <? 0) then None
  else match nth_error (ttable m) (Z.to_nat row) with
       | None => None
       | Some r => nth_error r (Z.to_nat col)
       end.

(** ** The object *)

Record MD_REncoder : Type := mkREncoder {
  _pinA     : Z;   (* uint8_t  *)
  _pinB     : Z;   (* uint8_t  *)
  _state    : Z;   (* uint8_t, latest table entry *)
  _period   : Z;   (* uint16_t, velocity calculation period *)
  _count    : Z;   (* uint16_t, running count of clicks *)
  _spd      : Z;   (* uint16_t, last calculated speed *)
  _timeLast : Z    (* uint32_t, last time read *)
}.

(** The constructor. *)
Definition new (pinA pinB : Z) : MD_REncoder :=
  {| _pinA := pinA; _pinB := pinB;
     _state := R_START;
     _spd := 0; _count := 0; _period := DEFAULT_PERIOD; _timeLast := 0 |}.

(** [setPeriod(uint16_t t)]. *)
Definition setPeriod (e : MD_REncoder) (t : Z) : MD_REncoder :=
  if negb (t =? 0) && (t <=? 1000)
  then {| _pinA := _pinA e; _pinB := _pinB e; _state := _state e;
          _period := t;
          _count := _count e; _spd := _spd e; _timeLast := _timeLast e |}
  else e.

(** [speed()]. *)
Definition speed (e : MD_REncoder) : Z := _spd e.

(** What one call of [read] gets from the board: the levels of the two
    lines, and the values of its two calls of [millis()]. *)
Record PollEnv : Type := mkPoll {
  lineA   : bool;   (* digitalRead(_pinA) *)
  lineB   : bool;   (* digitalRead(_pinB) *)
  millis1 : Z;      (* millis() in the test of the period *)
  millis2 : Z       (* millis() stored in _timeLast *)
}.

Definition digitalRead (level : bool) : Z := if level then 1 else 0.

(** [(digitalRead(_pinB) << 1) | digitalRead(_pinA)]. *)
Definition pinstate (i : PollEnv) : Z :=
  Z.lor (Z.shiftl (digitalRead (lineB i)) 1) (digitalRead (lineA i)).

(** The test of line 106: [millis() - _timeLast >= _period], an unsigned
    32-bit difference. *)
Definition window_over (e : MD_REncoder) (i : PollEnv) : bool :=
  wrap32 (millis1 i - _timeLast e) >=? _period e.

(** The node of the automaton kept in a stored entry: [_state & 0xf]. *)
Definition node (e : MD_REncoder) : Z := Z.land (_state e) 0xf.

(** [read()]: the new object and the returned emit bits. *)
Definition read (m : step_mode) (e : MD_REncoder) (i : PollEnv)
  : option (MD_REncoder * Z) :=
  match ttable_at m (Z.land (_state e) 0xf) (pinstate i) with
  | None => None
  | Some st =>
      let count := if Z.land st 0x30 =? 0 then _count e
                   else wrap16 (_count e + 1) in
      if window_over e i then
        if _period e =? 0 then None
        else Some ({| _pinA := _pinA e; _pinB := _pinB e; _state := st;
                      _period := _period e;
                      _count := 0;
                      _spd := wrap16 (count * (1000 / _period e));
                      _timeLast := millis2 i |},
                   Z.land st 0x30)
      else Some ({| _pinA := _pinA e; _pinB := _pinB e; _state := st;
                    _period := _period e;
                    _count := count;
                    _spd := _spd e;
                    _timeLast := _timeLast e |},
                 Z.land st 0x30)
  end.

(** A caller's loop: one [read] per element, the events in order. *)
Fixpoint reads (m : step_mode) (e : MD_REncoder) (ins : list PollEnv)
  : option (MD_REncoder * list Z) :=
  match ins with
  | [] => Some (e, [])
  | i :: ins' =>
      match read m e i with
      | None => None
      | Some (e1, ev) =>
          match reads m e1 ins' with
          | None => None
          | Some (e2, evs) => Some (e2, ev :: evs)
          end
      end
  end.

(** The objects a program can hold: built by the constructor, then changed
    by [setPeriod] and [read] only. *)
Inductive reachable (m : step_mode) : MD_REncoder -> Prop :=
| reach_new : forall pinA pinB,
    is_uint8 pinA -> is_uint8 pinB -> reachable m (new pinA pinB)
| reach_setPeriod : forall e t,
    reachable m e -> is_uint16 t -> reachable m (setPeriod e t)
| reach_read : forall e i e' ev,
    reachable m e -> is_uint32 (millis1 i) -> is_uint32 (millis2 i) ->
    read m e i = Some (e', ev) -> reachable m e'.

(** The four samples, written B then A as in the table header, read at a
    given pair of clock values. *)
Definition sample (b a : bool) (t1 t2 : Z) : PollEnv :=
  {| lineA := a; lineB := b; millis1 := t1; millis2 := t2 |}.

Definition s00 := sample false false.
Definition s01 := sample false true.
Definition s10 := sample true false.
Definition s11 := sample true true.

(** The levels of the two lines of a poll, B first. *)
Definition lines (i : PollEnv) : bool * bool := (lineB i, lineA i).

Definition L00 : bool * bool := (false, false).
Definition L01 : bool * bool := (false, true).
Definition L10 : bool * bool := (true, false).
Definition L11 : bool * bool := (true, true).

(** Both lines differ between two polls: a jump across the quadrature
    square, which a clean encoder cannot make in one step. *)
Definition jump (prev cur : PollEnv) : Prop :=
  lineA cur = negb (lineA prev) /\ lineB cur = negb (lineB prev).

(** The decoder alone: lines 101 and 114 of [read], iterated over a list of
    pin states; the last stored entry and the emit bits of every poll. *)
Fixpoint decode (m : step_mode) (st : Z) (xs : list Z) : option (Z * list Z) :=
  match xs with
  | [] => Some (st, [])
  | x :: xs' =>
      match ttable_at m (Z.land st 0xf) x with
      | None => None
      | Some st1 =>
          match decode m st1 xs' with
          | None => None
          | Some (st2, evs) => Some (st2, Z.land st1 0x30 :: evs)
          end
      end
  end.

(** Every value [_state] can hold: the constructor's, and the table's entries. *)
Definition stored (m : step_mode) : list Z := R_START :: concat (ttable m).

Definition all_pinstates : list Z := [0; 1; 2; 3].

(** The invariant of the object. *)
Record wf (m : step_mode) (e : MD_REncoder) : Prop := mkWf {
  wf_state  : In (_state e) (stored m);
  wf_period : 0 < _period e <= 1000;
  wf_count  : is_uint16 (_count e);
  wf_spd    : is_uint16 (_spd e);
  wf_time   : is_uint32 (_timeLast e)
}.

(** Check for one entry and one pin state: the table has an entry for them,
    and it is a stored one. *)
Definition closed_at (m : step_mode) (s x : Z) : bool :=
  match ttable_at m (Z.land s 0xf) x with
  | None => false
  | Some s' => existsb (Z.eqb s') (stored m)
  end.

(** The emit bits returned by the polls of a caller's loop. *)
Definition events (m : step_mode) (e : MD_REncoder) (ins : list PollEnv)
  : option (list Z) :=
  option_map snd (reads m e ins).

(** The pin state that two line levels give. *)
Definition pin_of_lines (l : bool * bool) : Z :=
  Z.lor (Z.shiftl (digitalRead (fst l)) 1) (digitalRead (snd l)).

(** What the decoder needs of an object: a stored entry of the table in
    [_state], and a period [read] can divide by. *)
Definition decodable (m : step_mode) (e : MD_REncoder) : Prop :=
  In (_state e) (stored m) /\ _period e <> 0.

(** The clock values of a poll fit [millis()]'s type. *)
Definition clock_ok (i : PollEnv) : Prop :=
  is_uint32 (millis1 i) /\ is_uint32 (millis2 i).

(** Check for one entry and one pin state, full-step table: the entry found
    has emit bits only in column 11, and then those of one direction. *)
Definition full_emit_at (s x : Z) : bool :=
  match ttable_at FullStep (Z.land s 0xf) x with
  | None => false
  | Some st =>
      (Z.land st 0x30 =? DIR_NONE)
      || ((x =? 3) && ((Z.land st 0x30 =? DIR_CW) || (Z.land st 0x30 =? DIR_CCW)))
  end.

(** The object after the samples 01, 00, 10 from rest: one step short of a
    clockwise click. *)
Definition before_cw_click : MD_REncoder :=
  {| _pinA := 2; _pinB := 3; _state := Full.R_CW_FINAL;
     _period := 500; _count := 0; _spd := 0; _timeLast := 0 |}.

(** The object after the closing 11 of that cycle. *)
Definition after_cw_click : MD_REncoder :=
  {| _pinA := 2; _pinB := 3; _state := Z.lor R_START DIR_CW;
     _period := 500; _count := 1; _spd := 0; _timeLast := 0 |}.

(** The count as line 105 leaves it for a poll that returned [ev]. *)
Definition counted (e : MD_REncoder) (ev : Z) : Z :=
  if ev =? DIR_NONE then _count e else wrap16 (_count e + 1).

(** All polls of a loop fall short of the end of the window. *)
Fixpoint within (m : step_mode) (e : MD_REncoder) (ins : list PollEnv) : Prop :=
  match ins with
  | [] => True
  | i :: ins' =>
      window_over e i = false /\
      match read m e i with
      | Some (e1, _) => within m e1 ins'
      | None => False
      end
  end.

(** The number of polls of a loop that returned an event. *)
Definition clicks (evs : list Z) : Z :=
  Z.of_nat (length (filter (fun ev => negb (ev =? DIR_NONE)) evs)).

(** Sixty-six clockwise cycles polled while the clock still reads 0. *)
Definition fast_turns : list PollEnv :=
  concat (repeat [s01 0 0; s00 0 0; s10 0 0; s11 0 0] 66).

(** The object they leave when the window was set to 1 ms. *)
Definition after_fast_turns : MD_REncoder :=
  {| _pinA := 2; _pinB := 3; _state := Z.lor R_START DIR_CW;
     _period := 1; _count := 66; _spd := 0; _timeLast := 0 |}.

(** Three clockwise cycles polled inside the first 500 ms. *)
Definition three_turns : list PollEnv :=
  [s01 10 10; s00 20 20; s10 30 30; s11 40 40;
   s01 110 110; s00 120 120; s10 130 130; s11 140 140;
   s01 210 210; s00 220 220; s10 230 230; s11 240 240].

Definition after_three_turns : MD_REncoder :=
  {| _pinA := 2; _pinB := 3; _state := Z.lor R_START DIR_CW;
     _period := 500; _count := 3; _spd := 0; _timeLast := 0 |}.

Definition after_first_window : MD_REncoder :=
  {| _pinA := 2; _pinB := 3; _state := R_START;
     _period := 500; _count := 0; _spd := 6; _timeLast := 500 |}.

(** The object after the sample 01 from rest, and after the sample 10. *)
Definition on_cw_begin : MD_REncoder :=
  {| _pinA := 2; _pinB := 3; _state := Full.R_CW_BEGIN;
     _period := 500; _count := 0; _spd := 0; _timeLast := 0 |}.

Definition on_ccw_begin : MD_REncoder :=
  {| _pinA := 2; _pinB := 3; _state := Full.R_CCW_BEGIN;
     _period := 500; _count := 0; _spd := 0; _timeLast := 0 |}.

(** Check for one entry and one pin state: the entry found by the second
    poll of that pin state has no emit bits and is its own successor. *)
Definition settles_at (m : step_mode) (s x : Z) : bool :=
  match ttable_at m (Z.land s 0xf) x with
  | None => false
  | Some s1 =>
      match ttable_at m (Z.land s1 0xf) x with
      | None => false
      | Some s2 =>
          (Z.land s2 0x30 =? DIR_NONE)
          && match ttable_at m (Z.land s2 0xf) x with
             | None => false
             | Some s3 => s3 =? s2
             end
      end
  end.

(** The nodes that stand for a detent: the start node and, in half-step
    mode, the node of the position 00. *)
Definition detent_nodes (m : step_mode) : list Z :=
  match m with
  | FullStep => [R_START]
  | HalfStep => [R_START; Half.R_START_M]
  end.

Definition on_detent (m : step_mode) (st : Z) : bool :=
  existsb (Z.eqb (Z.land st 0xf)) (detent_nodes m).

(** Check for one entry and one pin state, on what the second poll of that
    pin state does to the entry [s1] found by the first: an entry without
    emit bits is its own node; the second poll finds the node of [s1],
    without emit bits, unless [s1] is on a detent node and the pin state is
    01 or 10, and then it finds another node. *)
Definition second_poll_at (m : step_mode) (s x : Z) : bool :=
  match ttable_at m (Z.land s 0xf) x with
  | None => false
  | Some s1 =>
      match ttable_at m (Z.land s1 0xf) x with
      | None => false
      | Some s2 =>
          (if Z.land s1 0x30 =? DIR_NONE then s1 =? Z.land s1 0xf else true)
          && (if on_detent m s1 && ((x =? 1) || (x =? 2))
              then negb (Z.land s2 0xf =? Z.land s1 0xf)
              else s2 =? Z.land s1 0xf)
      end
  end.

(** Check for one entry and one pin state, full-step table: when the entry
    found for [xp] is not on the start node, the entry found next for the
    opposite pin state [3 - xp] is [R_START], without emit bits. *)
Definition full_jump_resets (s xp : Z) : bool :=
  match ttable_at FullStep (Z.land s 0xf) xp with
  | None => false
  | Some s1 =>
      (Z.land s1 0xf =? R_START)
      || match ttable_at FullStep (Z.land s1 0xf) (3 - xp) with
         | None => false
         | Some s2 => s2 =? R_START
         end
  end.

(** Check for one entry and one pin state, half-step table: the entry found
    has emit bits only in columns 00 and 11, and then those of one
    direction. *)
Definition half_emit_at (s x : Z) : bool :=
  match ttable_at HalfStep (Z.land s 0xf) x with
  | None => false
  | Some st =>
      (Z.land st 0x30 =? DIR_NONE)
      || (((x =? 0) || (x =? 3))
          && ((Z.land st 0x30 =? DIR_CW) || (Z.land st 0x30 =? DIR_CCW)))
  end.

(** ** Signals, and what the tables are measured against *)

(** The pin state that follows [x] when the knob turns the way the tables
    call clockwise: 11, 01, 00, 10, 11. *)
Definition cw_next (x : Z) : Z :=
  if x =? 3 then 1 else if x =? 1 then 0 else if x =? 0 then 2 else 3.

(** Quarter steps between two successive pin states: one forward, one back,
    none when nothing changed (and none counted for a jump). *)
Definition quarter (prev cur : Z) : Z :=
  if cur =? prev then 0
  else if cur =? cw_next prev then 1
  else if prev =? cw_next cur then -1
  else 0.

(** Quarter steps travelled by a run of pin states that follows [prev]. *)
Fixpoint travel (prev : Z) (xs : list Z) : Z :=
  match xs with
  | [] => 0
  | x :: xs' => quarter prev x + travel x xs'
  end.

(** A clean signal: no pin state differs from the one before in both lines. *)
Fixpoint clean (prev : Z) (xs : list Z) : Prop :=
  match xs with
  | [] => True
  | x :: xs' => x <> 3 - prev /\ clean x xs'
  end.

(** An event as a signed step, and the signed sum of a list of events. *)
Definition direction (ev : Z) : Z :=
  if ev =? DIR_CW then 1 else if ev =? DIR_CCW then -1 else 0.

Definition net (evs : list Z) : Z :=
  fold_right (fun ev n => direction ev + n) 0 evs.

(** Quarter steps between two events of the compiled table. *)
Definition steps_per_click (m : step_mode) : Z :=
  match m with
  | FullStep => 4
  | HalfStep => 2
  end.

(** Per node of the compiled table, in the order of the [#define]s: the pin
    state on which a clean signal holds the node, the quarter steps it
    stands away from the last click, and the polls already spent towards the
    next click. *)
Definition node_info (m : step_mode) : list (Z * Z * Z) :=
  match m with
  | FullStep =>
      [ (3, 0, 0)     (* R_START     *);
        (2, 3, 3)     (* R_CW_FINAL  *);
        (1, 1, 1)     (* R_CW_BEGIN  *);
        (0, 2, 2)     (* R_CW_NEXT   *);
        (2, -1, 1)    (* R_CCW_BEGIN *);
        (1, -3, 3)    (* R_CCW_FINAL *);
        (0, -2, 2)    (* R_CCW_NEXT  *) ]
  | HalfStep =>
      [ (3, 0, 0)     (* R_START       *);
        (2, -1, 1)    (* R_CCW_BEGIN   *);
        (1, 1, 1)     (* R_CW_BEGIN    *);
        (0, 0, 0)     (* R_START_M     *);
        (2, 1, 1)     (* R_CW_BEGIN_M  *);
        (1, -1, 1)    (* R_CCW_BEGIN_M *) ]
  end.

Definition info_of (m : step_mode) (st : Z) : Z * Z * Z :=
  nth (Z.to_nat (Z.land st 0xf)) (node_info m) (3, 0, 0).

Definition position (m : step_mode) (st : Z) : Z := fst (fst (info_of m st)).
Definition offset   (m : step_mode) (st : Z) : Z := snd (fst (info_of m st)).
Definition progress (m : step_mode) (st : Z) : Z := snd (info_of m st).

(** A signal with bounce: one clockwise cycle from rest, then a wiggle on
    the far side of the detent. *)
Definition turn_and_wiggle : list PollEnv :=
  [s11 0 0; s01 1 1; s01 2 2; s00 3 3; s10 4 4; s00 5 5;
   s10 6 6; s11 7 7; s10 8 8; s11 9 9].

(** Half a cycle counter-clockwise from rest, a wiggle, and on to 00. *)
Definition half_turns_back : list PollEnv :=
  [s11 0 0; s10 1 1; s00 2 2; s01 3 3; s00 4 4; s10 5 5; s00 6 6].

(** Check for one entry and one pin state: on a clean step the entry found
    is held on that pin state, and quarter steps and events stay in
    balance. *)
Definition counts_at (m : step_mode) (st x : Z) : bool :=
  if x =? 3 - position m st then true
  else match ttable_at m (Z.land st 0xf) x with
       | None => false
       | Some st' =>
           (position m st' =? x)
           && (offset m st + quarter (position m st) x
               =? steps_per_click m * direction (Z.land st' 0x30) + offset m st')
       end.

(** Check for one entry: it stands less than one click away from the last
    click, not at all on a rest position, and has spent less than a click's
    worth of polls. *)
Definition offset_ok (m : step_mode) (st : Z) : bool :=
  (- steps_per_click m <? offset m st) && (offset m st <? steps_per_click m)
  && (if position m st =? 3 then offset m st =? 0 else true)
  && (if (position m st =? 0) && (steps_per_click m =? 2)
      then offset m st =? 0 else true)
  && (0 <=? progress m st) && (progress m st <? steps_per_click m).

(** Check for one entry and one pin state: a poll adds at most one to the
    progress, and an event uses up a whole click's worth of it. *)
Definition paces_at (m : step_mode) (st x : Z) : bool :=
  match ttable_at m (Z.land st 0xf) x with
  | None => false
  | Some st' =>
      progress m st'
      + steps_per_click m * (if Z.land st' 0x30 =? DIR_NONE then 0 else 1)
      <=? progress m st + 1
  end.

(** The nodes next to rest: the start node and the two that begin a cycle. *)
Definition rest_nodes (m : step_mode) : list Z :=
  match m with
  | FullStep => [R_START; Full.R_CW_BEGIN; Full.R_CCW_BEGIN]
  | HalfStep => [R_START; Half.R_CW_BEGIN; Half.R_CCW_BEGIN]
  end.

Definition near_rest (m : step_mode) (st : Z) : bool :=
  existsb (Z.eqb (Z.land st 0xf)) (rest_nodes m).

(** Check for one entry and one pin state: from a node next to rest, a pin
    state other than 00 finds an entry next to rest, without emit bits. *)
Definition quiet_at (m : step_mode) (st x : Z) : bool :=
  if (x =? 0) || negb (near_rest m st) then true
  else match ttable_at m (Z.land st 0xf) x with
       | None => false
       | Some st' => near_rest m st' && (Z.land st' 0x30 =? DIR_NONE)
       end.

(** Check for one entry: its emit bits are those of no event or of one
    direction, and column 11 leads to the start node. *)
Definition entry_ok (m : step_mode) (st : Z) : bool :=
  ((Z.land st 0x30 =? DIR_NONE) || (Z.land st 0x30 =? DIR_CW)
   || (Z.land st 0x30 =? DIR_CCW))
  && (0 <=? st) && (st <? 2 ^ 8)
  && match ttable_at m (Z.land st 0xf) 3 with
     | None => false
     | Some st' => Z.land st' 0xf =? R_START
     end.

(** Check for one entry and two successive pin states: an event of the
    second poll is clockwise when line A alone changed between the two, and
    counter-clockwise when line B alone changed. *)
Definition edge_at (m : step_mode) (st x1 x2 : Z) : bool :=
  match ttable_at m (Z.land st 0xf) x1 with
  | None => false
  | Some st1 =>
      match ttable_at m (Z.land st1 0xf) x2 with
      | None => false
      | Some st2 =>
          if Z.land st2 0x30 =? DIR_CW then Z.lxor x1 x2 =? 1
          else if Z.land st2 0x30 =? DIR_CCW then Z.lxor x1 x2 =? 2
          else true
      end
  end.

(** ** The polling sketch *)

(** What the sketch hands to [Serial.print]: a string or a number. *)
Inductive SerialItem : Type :=
| PrintStr (s : String.string)
| PrintNum (n : Z).

Definition str_plus  : String.string :=
  String.String "010"%char "+1"%string.   (* newline, then +1 *)
Definition str_minus : String.string :=
  String.String "010"%char "-1"%string.   (* newline, then -1 *)

(** One pass of the sketch's [loop()] on its encoder [R]. *)
Definition loop (m : step_mode) (R : MD_REncoder) (i : PollEnv)
  : option (MD_REncoder * list SerialItem) :=
  match read m R i with
  | None => None
  | Some (R', x) =>
      if x =? 0 then Some (R', [])
      else Some (R', [PrintStr (if x =? DIR_CW then str_plus else str_minus);
                      PrintStr "  "%string;
                      PrintNum (speed R')])
  end.

(** The passes of [loop()] one after the other, and all they print. *)
Fixpoint loops (m : step_mode) (R : MD_REncoder) (ins : list PollEnv)
  : option (MD_REncoder * list SerialItem) :=
  match ins with
  | [] => Some (R, [])
  | i :: ins' =>
      match loop m R i with
      | None => None
      | Some (R1, out) =>
          match loops m R1 ins' with
          | None => None
          | Some (R2, out') => Some (R2, out ++ out')
          end
      end
  end.

(** The steps a reader of the serial line adds up: +1 and -1. *)
Fixpoint tally (out : list SerialItem) : Z :=
  match out with
  | [] => 0
  | PrintStr s :: out' =>
      (if String.eqb s str_plus then 1
       else if String.eqb s str_minus then -1 else 0) + tally out'
  | PrintNum _ :: out' => tally out'
  end.

(** The object after a poll that ended its window just before the clock
    wraps around. *)
Definition before_rollover : MD_REncoder :=
  {| _pinA := 2; _pinB := 3; _state := R_START;
     _period := 500; _count := 0; _spd := 0; _timeLast := 2 ^ 32 - 100 |}.

(** * Basic facts *)

Lemma pinstate_cases (i : PollEnv) : In (pinstate i) all_pinstates.
Proof.
  unfold pinstate, all_pinstates.
  destruct (lineA i), (lineB i); simpl; auto.
Qed.

Lemma wrap16_range (z : Z) : is_uint16 (wrap16 z).
Proof. unfold is_uint16, wrap16. apply Z.mod_pos_bound. lia. Qed.

Lemma wrap16_small (z : Z) : 0 <= z < 65536 -> wrap16 z = z.
Proof. intros H. unfold wrap16. apply Z.mod_small. simpl. lia. Qed.

(** A property of table entries checked on each of them. *)
Lemma stored_forall (m : step_mode) (P : Z -> bool) :
  forallb P (stored m) = true -> forall s, In s (stored m) -> P s = true.
Proof. intros H s Hs. rewrite forallb_forall in H. auto. Qed.

Lemma pinstates_forall (P : Z -> bool) :
  forallb P all_pinstates = true -> forall i, P (pinstate i) = true.
Proof.
  intros H i. rewrite forallb_forall in H. apply H, pinstate_cases.
Qed.

(** The table is closed: from a stored entry every pin state leads to a
    stored entry. *)
Lemma table_closed (m : step_mode) (s : Z) (i : PollEnv) :
  In s (stored m) ->
  exists s', ttable_at m (Z.land s 0xf) (pinstate i) = Some s' /\ In s' (stored m).
Proof.
  intros Hs.
  assert (H : closed_at m s (pinstate i) = true).
  { apply (pinstates_forall (closed_at m s)).
    revert s Hs. apply (stored_forall m (fun s => forallb (closed_at m s) all_pinstates)).
    destruct m; vm_compute; reflexivity. }
  unfold closed_at in H.
  destruct (ttable_at m (Z.land s 15) (pinstate i)) as [s'|]; [|discriminate].
  exists s'. split; [reflexivity|].
  apply existsb_exists in H. destruct H as [y [Hy Heq]].
  apply Z.eqb_eq in Heq. subst. exact Hy.
Qed.

Lemma stored_node_lt (m : step_mode) (s : Z) :
  In s (stored m) -> 0 <= Z.land s 0xf < rows m.
Proof.
  intros Hs.
  assert (H : (fun s => (0 <=? Z.land s 15) && (Z.land s 15 <? rows m)) s = true).
  { revert s Hs. apply stored_forall. destruct m; vm_compute; reflexivity. }
  simpl in H. apply andb_true_iff in H. destruct H as [H1 H2].
  apply Z.leb_le in H1. apply Z.ltb_lt in H2. auto.
Qed.

(** What a successful [read] did. *)
Lemma read_inv (m : step_mode) (e e' : MD_REncoder) (i : PollEnv) (ev : Z) :
  read m e i = Some (e', ev) ->
  ttable_at m (node e) (pinstate i) = Some (_state e') /\
  ev = Z.land (_state e') 0x30 /\
  _period e' = _period e /\ _pinA e' = _pinA e /\ _pinB e' = _pinB e.
Proof.
  unfold read, node.
  destruct (ttable_at m (Z.land (_state e) 15) (pinstate i)) as [st|]; [|discriminate].
  destruct (window_over e i).
  - destruct (_period e =? 0); [discriminate|].
    intros H. inversion H. subst. simpl. auto.
  - intros H. inversion H. subst. simpl. auto.
Qed.

(** [read] returns as soon as the table access is inside the table and the
    period is not zero. *)
Lemma read_some (m : step_mode) (e : MD_REncoder) (i : PollEnv) (st : Z) :
  ttable_at m (node e) (pinstate i) = Some st -> _period e <> 0 ->
  exists e', read m e i = Some (e', Z.land st 0x30) /\ _state e' = st.
Proof.
  unfold read, node. intros Ht Hp. rewrite Ht.
  destruct (window_over e i).
  - apply Z.eqb_neq in Hp. rewrite Hp. eexists. split; reflexivity.
  - eexists. split; reflexivity.
Qed.

Lemma wf_new (m : step_mode) (pinA pinB : Z) : wf m (new pinA pinB).
Proof.
  constructor; simpl; unfold is_uint16, is_uint32, DEFAULT_PERIOD; lia.
Qed.

Lemma wf_setPeriod (m : step_mode) (e : MD_REncoder) (t : Z) :
  is_uint16 t -> wf m e -> wf m (setPeriod e t).
Proof.
  intros Ht16 [Hs Hp Hc Hv Ht]. unfold setPeriod.
  destruct (negb (t =? 0) && (t <=? 1000)) eqn:E.
  - apply andb_true_iff in E. destruct E as [E1 E2].
    apply negb_true_iff, Z.eqb_neq in E1. apply Z.leb_le in E2.
    unfold is_uint16 in Ht16.
    constructor; simpl; auto. lia.
  - constructor; assumption.
Qed.

Lemma wf_read (m : step_mode) (e e' : MD_REncoder) (i : PollEnv) (ev : Z) :
  is_uint32 (millis2 i) -> wf m e -> read m e i = Some (e', ev) -> wf m e'.
Proof.
  intros Hm2 [Hs Hp Hc Hv Ht]. unfold read.
  destruct (table_closed m (_state e) i Hs) as [st [Hst Hin]].
  rewrite Hst.
  destruct (window_over e i).
  - destruct (_period e =? 0); [discriminate|].
    intros H. inversion H. subst.
    constructor; simpl; auto using wrap16_range.
    unfold is_uint16. lia.
  - intros H. inversion H. subst.
    constructor; simpl; auto.
    destruct (Z.land st 48 =? 0); auto using wrap16_range.
Qed.

(** Every object a program can hold satisfies the invariant. *)
Lemma reachable_wf (m : step_mode) (e : MD_REncoder) : reachable m e -> wf m e.
Proof.
  induction 1 as [a b Ha Hb | e t He IH Ht | e i e' ev He IH H1 H2 Hr].
  - apply wf_new.
  - apply wf_setPeriod; assumption.
  - eapply wf_read; eassumption.
Qed.

(** On a reachable object [read] returns, whatever the board supplies. *)
Lemma wf_read_total (m : step_mode) (e : MD_REncoder) (i : PollEnv) :
  wf m e -> exists e' ev, read m e i = Some (e', ev).
Proof.
  intros [Hs Hp Hc Hv Ht].
  destruct (table_closed m (_state e) i Hs) as [st [Hst Hin]].
  destruct (read_some m e i st Hst) as [e' [Hr _]]; [lia|].
  eauto.
Qed.

(** [reads] walks the table as [decode] does. *)
Lemma reads_decode (m : step_mode) (ins : list PollEnv) :
  forall e st evs,
    _period e <> 0 ->
    decode m (_state e) (map pinstate ins) = Some (st, evs) ->
    exists e', reads m e ins = Some (e', evs) /\ _state e' = st /\
               _period e' = _period e.
Proof.
  induction ins as [|i ins IH]; simpl; intros e st evs Hp Hd.
  - inversion Hd. subst. eauto.
  - destruct (ttable_at m (Z.land (_state e) 15) (pinstate i)) as [st1|] eqn:Ht;
      [|discriminate].
    destruct (read_some m e i st1 Ht Hp) as [e1 [Hr Hs1]].
    rewrite Hr.
    destruct (read_inv _ _ _ _ _ Hr) as (_ & _ & Hp1 & _).
    destruct (decode m st1 (map pinstate ins)) as [[st2 evs2]|] eqn:Hd2;
      [|discriminate].
    inversion Hd. subst st2 evs. clear Hd.
    rewrite <- Hs1 in Hd2.
    destruct (IH e1 st evs2) as [e2 [Hrs [Hs2 Hp2]]]; [congruence|exact Hd2|].
    rewrite Hrs. exists e2. repeat split; congruence.
Qed.

Lemma pinstate_of_lines (i : PollEnv) : pinstate i = pin_of_lines (lines i).
Proof. reflexivity. Qed.

Lemma map_pinstate_lines (ins : list PollEnv) :
  map pinstate ins = map pin_of_lines (map lines ins).
Proof. rewrite map_map. reflexivity. Qed.

(** Over stored entries the table walk never leaves the table. *)
Lemma decode_total (m : step_mode) (ins : list PollEnv) :
  forall st, In st (stored m) ->
    exists st' evs, decode m st (map pinstate ins) = Some (st', evs) /\
                    In st' (stored m).
Proof.
  induction ins as [|i ins IH]; simpl; intros st Hst.
  - eauto.
  - destruct (table_closed m st i Hst) as [st1 [Ht Hin]]. rewrite Ht.
    destruct (IH st1 Hin) as [st2 [evs [Hd Hin2]]]. rewrite Hd. eauto.
Qed.

(** [decode] looks at the node of the stored entry only. *)
Lemma decode_node (m : step_mode) (st x : Z) (xs : list Z) :
  decode m st (x :: xs) = decode m (Z.land st 0xf) (x :: xs).
Proof.
  simpl. rewrite <- Z.land_assoc. reflexivity.
Qed.

Lemma wf_decodable (m : step_mode) (e : MD_REncoder) : wf m e -> decodable m e.
Proof. intros [Hs Hp _ _ _]. split; [assumption | lia]. Qed.

Lemma reachable_decodable (m : step_mode) (e : MD_REncoder) :
  reachable m e -> decodable m e.
Proof. intros H. apply wf_decodable, reachable_wf, H. Qed.

Lemma read_decodable (m : step_mode) (e e' : MD_REncoder) (i : PollEnv) (ev : Z) :
  decodable m e -> read m e i = Some (e', ev) -> decodable m e'.
Proof.
  intros [Hs Hp] Hr. destruct (read_inv _ _ _ _ _ Hr) as (Ht & _ & Hp' & _).
  destruct (table_closed m (_state e) i Hs) as [st [Hst Hin]].
  unfold node in Ht. rewrite Hst in Ht. inversion Ht. split; congruence.
Qed.

(** The events of a loop are those of the table walk. *)
Lemma events_decode (m : step_mode) (e : MD_REncoder) (ins : list PollEnv) :
  decodable m e ->
  events m e ins = option_map snd (decode m (_state e) (map pinstate ins)).
Proof.
  intros [Hs Hp].
  destruct (decode_total m ins (_state e) Hs) as [st [evs [Hd _]]].
  destruct (reads_decode m ins e st evs Hp Hd) as [e' [Hr _]].
  unfold events. rewrite Hr, Hd. reflexivity.
Qed.

(** Two objects on the same node emit the same events from then on. *)
Lemma events_same_node (m : step_mode) (e1 e2 : MD_REncoder) (ins : list PollEnv) :
  decodable m e1 -> decodable m e2 -> node e1 = node e2 ->
  events m e1 ins = events m e2 ins.
Proof.
  intros W1 W2 Hn. rewrite !events_decode by assumption.
  destruct ins as [|i ins]; [reflexivity|].
  cbn [map]. rewrite (decode_node m (_state e1)), (decode_node m (_state e2)).
  unfold node in Hn. rewrite Hn. reflexivity.
Qed.

(** The polls of a loop started on the rest node, by evaluation of the walk. *)
Lemma reads_from_start (m : step_mode) (e : MD_REncoder) (ins : list PollEnv)
      (l : bool * bool) (ls : list (bool * bool)) (st : Z) (evs : list Z) :
  decodable m e -> node e = R_START -> map lines ins = l :: ls ->
  decode m R_START (map pin_of_lines (l :: ls)) = Some (st, evs) ->
  exists e', reads m e ins = Some (e', evs) /\ _state e' = st /\
             decodable m e' /\ events m e ins = Some evs.
Proof.
  intros W Hn Hl Hd.
  assert (Hd' : decode m (_state e) (map pinstate ins) = Some (st, evs)).
  { rewrite map_pinstate_lines, Hl. cbn [map]. rewrite decode_node.
    unfold node in Hn. rewrite Hn. exact Hd. }
  destruct W as [Hs Hp].
  destruct (reads_decode m ins e st evs Hp Hd') as [e' [Hr [Hst Hp']]].
  exists e'. repeat split; auto.
  - destruct (decode_total m ins (_state e) Hs) as [st' [evs' [Hd2 Hin]]].
    rewrite Hd' in Hd2. inversion Hd2. subst. assumption.
  - congruence.
  - unfold events. rewrite Hr. reflexivity.
Qed.

Lemma reachable_reads (m : step_mode) (ins : list PollEnv) :
  forall e e' evs,
    reachable m e -> Forall clock_ok ins ->
    reads m e ins = Some (e', evs) -> reachable m e'.
Proof.
  induction ins as [|i ins IH]; simpl; intros e e' evs He Hc Hr.
  - inversion Hr. subst. assumption.
  - destruct (read m e i) as [[e1 ev]|] eqn:H1; [|discriminate].
    destruct (reads m e1 ins) as [[e2 evs2]|] eqn:H2; [|discriminate].
    inversion Hr. subst. inversion Hc as [|? ? [Hc1 Hc2] Hc']. subst.
    apply (IH e1 e' evs2); auto.
    eapply reach_read; eassumption.
Qed.

(** * The decoder in full-step mode *)

(** C1, as the claim states it, fails: from the constructed object the polls
    of the samples 00, 01, 11, 10, 00 return no event at all, and neither do
    those of 00, 10, 11, 01, 00; the last poll of the first sequence is not
    a clockwise event. *)
Lemma C1_cycle_through_00_emits_nothing :
  events FullStep (new 2 3) [s00 0 0; s01 0 0; s11 0 0; s10 0 0; s00 0 0]
    = Some [DIR_NONE; DIR_NONE; DIR_NONE; DIR_NONE; DIR_NONE] /\
  events FullStep (new 2 3) [s00 0 0; s10 0 0; s11 0 0; s01 0 0; s00 0 0]
    = Some [DIR_NONE; DIR_NONE; DIR_NONE; DIR_NONE; DIR_NONE] /\
  events FullStep (new 2 3) [s00 0 0; s01 0 0; s11 0 0; s10 0 0; s00 0 0]
    <> Some [DIR_NONE; DIR_NONE; DIR_NONE; DIR_NONE; DIR_CW].
Proof.
  repeat split; try reflexivity.
  vm_compute. discriminate.
Qed.

(** C1, amended: in full-step mode the rest position is the sample 11 (both
    lines high).  From any reachable object on the rest node, whatever the
    clock, the polls of 11, 01, 00, 10, 11 return no event on the first four
    samples and one clockwise event on the closing 11; the polls of
    11, 10, 00, 01, 11 return one counter-clockwise event on the closing 11
    and no clockwise event. *)
Theorem C1_full_step_cycle (e : MD_REncoder) (cw ccw : list PollEnv) :
  reachable FullStep e -> node e = R_START ->
  map lines cw  = [L11; L01; L00; L10; L11] ->
  map lines ccw = [L11; L10; L00; L01; L11] ->
  events FullStep e cw
    = Some [DIR_NONE; DIR_NONE; DIR_NONE; DIR_NONE; DIR_CW] /\
  events FullStep e ccw
    = Some [DIR_NONE; DIR_NONE; DIR_NONE; DIR_NONE; DIR_CCW].
Proof.
  intros He Hn Hcw Hccw.
  apply reachable_decodable in He.
  split.
  - destruct (reads_from_start FullStep e cw _ _ 0x10
                [DIR_NONE; DIR_NONE; DIR_NONE; DIR_NONE; DIR_CW] He Hn Hcw)
      as (e' & _ & _ & _ & Hev); [reflexivity | exact Hev].
  - destruct (reads_from_start FullStep e ccw _ _ 0x20
                [DIR_NONE; DIR_NONE; DIR_NONE; DIR_NONE; DIR_CCW] He Hn Hccw)
      as (e' & _ & _ & _ & Hev); [reflexivity | exact Hev].
Qed.

Lemma C1_full_step_cycle_witness :
  reachable FullStep (new 2 3) /\ node (new 2 3) = R_START /\
  events FullStep (new 2 3) [s11 0 1; s01 2 2; s00 3 3; s10 4 5; s11 6 6]
    = Some [DIR_NONE; DIR_NONE; DIR_NONE; DIR_NONE; DIR_CW] /\
  events FullStep (new 2 3) [s11 0 0; s10 7 7; s00 8 8; s01 9 9; s11 600 600]
    = Some [DIR_NONE; DIR_NONE; DIR_NONE; DIR_NONE; DIR_CCW].
Proof.
  assert (R : reachable FullStep (new 2 3))
    by (constructor; unfold is_uint8; lia).
  split; [exact R|]. split; [reflexivity|].
  apply (C1_full_step_cycle (new 2 3)); [exact R | reflexivity ..].
Defined.

Lemma lines_of_pinstate_3 (i : PollEnv) : pinstate i = 3 -> lines i = L11.
Proof.
  unfold pinstate, lines, L11. destruct (lineA i), (lineB i); simpl;
    intros H; try discriminate; reflexivity.
Qed.

Lemma lines_of_pinstate_0 (i : PollEnv) : pinstate i = 0 -> lines i = L00.
Proof.
  unfold pinstate, lines, L00. destruct (lineA i), (lineB i); simpl;
    intros H; try discriminate; reflexivity.
Qed.

Lemma before_cw_click_reachable : reachable FullStep before_cw_click.
Proof.
  apply (reachable_reads FullStep [s01 0 0; s00 0 0; s10 0 0] (new 2 3) _
           [DIR_NONE; DIR_NONE; DIR_NONE]).
  - constructor; unfold is_uint8; lia.
  - repeat constructor; unfold is_uint32; simpl; lia.
  - reflexivity.
Qed.

(** C2, as the claim states it, fails: the object reached by the samples
    01, 00, 10 returns a clockwise event on a poll whose sample is 11, not
    00. *)
Lemma C2_event_on_sample_11 :
  reads FullStep (new 2 3) [s01 0 0; s00 0 0; s10 0 0]
    = Some (before_cw_click, [DIR_NONE; DIR_NONE; DIR_NONE]) /\
  option_map snd (read FullStep before_cw_click (s11 0 0)) = Some DIR_CW /\
  DIR_CW <> DIR_NONE /\
  lines (s11 0 0) <> L00.
Proof.
  repeat split; try reflexivity; vm_compute; discriminate.
Qed.

(** C2, amended: in full-step mode a poll of a reachable object returns a
    nonzero event only when the polled sample is 11, the rest position with
    both lines high, and that event is clockwise or counter-clockwise; a
    poll on any other sample, 00 included, returns no event. *)
Theorem C2_full_step_emits_at_11_only
        (e e' : MD_REncoder) (i : PollEnv) (ev : Z) :
  reachable FullStep e ->
  read FullStep e i = Some (e', ev) ->
  ev <> DIR_NONE ->
  lines i = L11 /\ (ev = DIR_CW \/ ev = DIR_CCW).
Proof.
  intros He Hr Hev.
  destruct (reachable_decodable _ _ He) as [Hs _].
  destruct (read_inv _ _ _ _ _ Hr) as (Ht & Hevs & _).
  assert (H : full_emit_at (_state e) (pinstate i) = true).
  { apply (pinstates_forall (full_emit_at (_state e))).
    revert Hs. generalize (_state e).
    apply (stored_forall FullStep (fun s => forallb (full_emit_at s) all_pinstates)).
    vm_compute. reflexivity. }
  unfold full_emit_at in H. unfold node in Ht. rewrite Ht in H.
  rewrite <- Hevs in H.
  apply orb_true_iff in H. destruct H as [H|H].
  - apply Z.eqb_eq in H. contradiction.
  - apply andb_true_iff in H. destruct H as [H3 Hd].
    apply Z.eqb_eq in H3. split; [apply lines_of_pinstate_3, H3|].
    apply orb_true_iff in Hd. destruct Hd as [Hd|Hd]; apply Z.eqb_eq in Hd; auto.
Qed.

Lemma C2_full_step_emits_at_11_only_witness :
  reachable FullStep before_cw_click /\
  read FullStep before_cw_click (s11 0 0)
    = Some (after_cw_click, DIR_CW) /\
  DIR_CW <> DIR_NONE /\
  lines (s11 0 0) = L11 /\ (DIR_CW = DIR_CW \/ DIR_CW = DIR_CCW).
Proof.
  split; [exact before_cw_click_reachable|].
  split; [reflexivity|].
  split; [vm_compute; discriminate|].
  apply (C2_full_step_emits_at_11_only
           before_cw_click after_cw_click (s11 0 0) DIR_CW).
  - exact before_cw_click_reachable.
  - reflexivity.
  - vm_compute. discriminate.
Defined.

(** * Totality of [read] *)

(** C3: for every object reachable from the constructor, in either mode, the
    masked row index [_state & 0xf] is inside the compiled table (7 rows in
    full-step mode, 6 in half-step mode), the entry for that row and any
    sample exists, and [read] returns a new object and an event. *)
Theorem C3_read_total (m : step_mode) (e : MD_REncoder) :
  reachable m e ->
  rows FullStep = 7 /\ rows HalfStep = 6 /\
  0 <= Z.land (_state e) 0xf < rows m /\
  forall i : PollEnv,
    (exists st, ttable_at m (Z.land (_state e) 0xf) (pinstate i) = Some st) /\
    (exists e' ev, read m e i = Some (e', ev)).
Proof.
  intros He. pose proof (reachable_wf _ _ He) as W.
  split; [reflexivity|]. split; [reflexivity|].
  split; [apply stored_node_lt, (wf_state _ _ W)|].
  intros i. split.
  - destruct (table_closed m (_state e) i (wf_state _ _ W)) as [st [Hst _]].
    exists st. exact Hst.
  - apply wf_read_total, W.
Qed.

Lemma C3_read_total_witness :
  reachable FullStep before_cw_click /\
  rows FullStep = 7 /\ rows HalfStep = 6 /\
  0 <= Z.land (_state before_cw_click) 0xf < rows FullStep /\
  forall i : PollEnv,
    (exists st, ttable_at FullStep (Z.land (_state before_cw_click) 0xf)
                  (pinstate i) = Some st) /\
    (exists e' ev, read FullStep before_cw_click i = Some (e', ev)).
Proof.
  split; [exact before_cw_click_reachable|].
  apply (C3_read_total FullStep before_cw_click).
  exact before_cw_click_reachable.
Defined.

(** * The speed estimator *)

(** C4: for every 16-bit argument [t], [setPeriod] stores [t] as the window
    exactly when [0 < t <= 1000] and otherwise returns the object as it was,
    signalling nothing; so [setPeriod 0] and [setPeriod 1001] change nothing,
    no other field is ever touched, and the constructor's window is 500. *)
Theorem C4_setPeriod_window (e : MD_REncoder) (t : Z) :
  is_uint16 t ->
  _period (setPeriod e t) = (if (0 <? t) && (t <=? 1000) then t else _period e) /\
  (0 < t <= 1000 -> _period (setPeriod e t) = t) /\
  (t = 0 \/ t > 1000 -> setPeriod e t = e) /\
  setPeriod e 0 = e /\ setPeriod e 1001 = e /\
  (_state (setPeriod e t) = _state e /\ _count (setPeriod e t) = _count e /\
   _spd (setPeriod e t) = _spd e /\ _timeLast (setPeriod e t) = _timeLast e) /\
  (forall pinA pinB, _period (new pinA pinB) = 500).
Proof.
  intros [Ht0 Ht1]. unfold setPeriod.
  destruct (Z.eqb_spec t 0) as [E0|E0]; destruct (Z.leb_spec t 1000) as [E1|E1];
    destruct (Z.ltb_spec 0 t) as [E2|E2]; simpl;
    repeat split; intros; try reflexivity; try lia.
Qed.

Lemma C4_setPeriod_window_witness :
  is_uint16 250 /\
  _period (setPeriod (new 2 3) 250) = 250 /\
  setPeriod (new 2 3) 0 = new 2 3 /\ setPeriod (new 2 3) 1001 = new 2 3.
Proof.
  assert (U : is_uint16 250) by (unfold is_uint16; lia).
  destruct (C4_setPeriod_window (new 2 3) 250 U) as (_ & H & _ & H0 & H1 & _).
  split; [exact U|]. split; [apply H; lia|]. split; assumption.
Defined.

(** C9, as the claim states it, fails: the window length of a constructed
    object is not zero. *)
Lemma C9_window_not_zero_initialized :
  ~ (_state (new 2 3) = R_START /\ _count (new 2 3) = 0 /\
     _period (new 2 3) = 0 /\ _spd (new 2 3) = 0 /\ _timeLast (new 2 3) = 0).
Proof. intros (_ & _ & H & _). vm_compute in H. discriminate. Qed.

(** C9, amended: at construction the decoder state is the rest node
    [R_START = 0], the accumulated count, the last-computed rate and the
    last-boundary timestamp are zero, and the window length is
    [DEFAULT_PERIOD], 500 ms. *)
Theorem C9_constructor (pinA pinB : Z) :
  _state (new pinA pinB) = R_START /\ R_START = 0 /\
  _count (new pinA pinB) = 0 /\ _spd (new pinA pinB) = 0 /\
  _timeLast (new pinA pinB) = 0 /\
  _period (new pinA pinB) = DEFAULT_PERIOD /\ DEFAULT_PERIOD = 500 /\
  _pinA (new pinA pinB) = pinA /\ _pinB (new pinA pinB) = pinB.
Proof. repeat split. Qed.

(** A poll that ends the window. *)
Lemma read_window_over (m : step_mode) (e e' : MD_REncoder) (i : PollEnv) (ev : Z) :
  window_over e i = true -> read m e i = Some (e', ev) ->
  _spd e' = wrap16 (counted e ev * (1000 / _period e)) /\
  _count e' = 0 /\ _timeLast e' = millis2 i /\ _period e' = _period e.
Proof.
  unfold read, counted. intros Hw. rewrite Hw.
  destruct (ttable_at m (Z.land (_state e) 15) (pinstate i)) as [st|]; [|discriminate].
  destruct (_period e =? 0); [discriminate|].
  intros H. inversion H. subst. simpl. auto.
Qed.

(** A poll inside the window. *)
Lemma read_window_open (m : step_mode) (e e' : MD_REncoder) (i : PollEnv) (ev : Z) :
  window_over e i = false -> read m e i = Some (e', ev) ->
  _spd e' = _spd e /\ _count e' = counted e ev /\
  _timeLast e' = _timeLast e /\ _period e' = _period e.
Proof.
  unfold read, counted. intros Hw. rewrite Hw.
  destruct (ttable_at m (Z.land (_state e) 15) (pinstate i)) as [st|]; [|discriminate].
  intros H. inversion H. subst. simpl. auto.
Qed.

Lemma counted_range (e : MD_REncoder) (ev : Z) :
  is_uint16 (_count e) -> is_uint16 (counted e ev).
Proof.
  intros H. unfold counted. destruct (ev =? DIR_NONE); auto using wrap16_range.
Qed.

Lemma clicks_nonneg (evs : list Z) : 0 <= clicks evs.
Proof. unfold clicks. lia. Qed.

Lemma clicks_cons (ev : Z) (evs : list Z) :
  clicks (ev :: evs) = (if ev =? DIR_NONE then 0 else 1) + clicks evs.
Proof.
  unfold clicks. cbn [filter].
  destruct (ev =? DIR_NONE); cbn [negb length]; lia.
Qed.

(** Inside a window the polls only add their events to the count. *)
Lemma reads_within (m : step_mode) (ins : list PollEnv) :
  forall e e1 evs,
    is_uint16 (_count e) -> within m e ins -> reads m e ins = Some (e1, evs) ->
    _count e1 = wrap16 (_count e + clicks evs) /\ _spd e1 = _spd e /\
    _timeLast e1 = _timeLast e /\ _period e1 = _period e.
Proof.
  induction ins as [|i ins IH]; simpl; intros e e1 evs Hc Hw Hr.
  - inversion Hr. subst. unfold clicks. simpl. rewrite Z.add_0_r.
    rewrite wrap16_small; auto.
  - destruct Hw as [Hw1 Hw2].
    destruct (read m e i) as [[e' ev]|] eqn:H1; [|discriminate].
    destruct (reads m e' ins) as [[e2 evs2]|] eqn:H2; [|discriminate].
    inversion Hr. subst. clear Hr.
    destruct (read_window_open _ _ _ _ _ Hw1 H1) as (Hs & Hcnt & Ht & Hp).
    destruct (IH e' e1 evs2) as (Ic & Is & It & Ip); auto.
    { rewrite Hcnt. apply counted_range, Hc. }
    repeat split; try congruence.
    rewrite Ic, Hcnt, clicks_cons. unfold counted, wrap16.
    destruct (ev =? DIR_NONE).
    + reflexivity.
    + rewrite Z.add_mod_idemp_l by (simpl; lia). f_equal. lia.
Qed.

(** C10: when one poll of a reachable object both returns an event and ends
    the window, the count is incremented first (in its 16 bits), the stored
    rate is computed from the incremented count, and only then is the count
    reset to 0: the event belongs to the closing window. *)
Theorem C10_boundary_event_counted
        (m : step_mode) (e e' : MD_REncoder) (i : PollEnv) (ev : Z) :
  reachable m e ->
  read m e i = Some (e', ev) ->
  ev <> DIR_NONE ->
  window_over e i = true ->
  speed e' = wrap16 (wrap16 (_count e + 1) * (1000 / _period e)) /\
  ((_count e + 1) * (1000 / _period e) < 2 ^ 16 ->
   speed e' = (_count e + 1) * (1000 / _period e)) /\
  _count e' = 0.
Proof.
  intros He Hr Hev Hw.
  pose proof (reachable_wf _ _ He) as [_ Hp Hc _ _].
  destruct (read_window_over _ _ _ _ _ Hw Hr) as (Hs & Hc' & _).
  unfold counted in Hs. apply Z.eqb_neq in Hev. rewrite Hev in Hs.
  unfold speed. repeat split; auto.
  intros Hlt. rewrite Hs.
  assert (Hq : 1 <= 1000 / _period e).
  { apply Z.div_le_lower_bound; lia. }
  unfold is_uint16 in Hc.
  assert (Hc1 : _count e + 1 < 2 ^ 16) by nia.
  rewrite (wrap16_small (_count e + 1)) by (simpl in *; lia).
  apply wrap16_small. simpl in *. nia.
Qed.

Lemma C10_boundary_event_counted_witness :
  reachable FullStep before_cw_click /\
  read FullStep before_cw_click (s11 500 500)
    = Some ({| _pinA := 2; _pinB := 3; _state := Z.lor R_START DIR_CW;
               _period := 500; _count := 0; _spd := 2; _timeLast := 500 |},
            DIR_CW) /\
  DIR_CW <> DIR_NONE /\
  window_over before_cw_click (s11 500 500) = true /\
  speed {| _pinA := 2; _pinB := 3; _state := Z.lor R_START DIR_CW;
           _period := 500; _count := 0; _spd := 2; _timeLast := 500 |}
    = wrap16 (wrap16 (0 + 1) * (1000 / 500)).
Proof.
  split; [exact before_cw_click_reachable|].
  split; [reflexivity|].
  split; [vm_compute; discriminate|].
  split; [reflexivity|].
  refine (proj1 (C10_boundary_event_counted
                   FullStep before_cw_click _ (s11 500 500) DIR_CW _ _ _ _)).
  - exact before_cw_click_reachable.
  - reflexivity.
  - vm_compute. discriminate.
  - reflexivity.
Defined.

(** C5, as the claim states it, fails: with a window of 1 ms, 66 events are
    counted while the clock reads 0; the next poll, at clock value 1 and
    with no event, ends the window and stores the rate 464, not
    66 * (1000 / 1) = 66000. *)
Lemma C5_rate_wraps_in_16_bits :
  reads FullStep (setPeriod (new 2 3) 1) fast_turns
    = Some (after_fast_turns,
            concat (repeat [DIR_NONE; DIR_NONE; DIR_NONE; DIR_CW] 66)) /\
  window_over after_fast_turns (s11 1 1) = true /\
  option_map (fun r => (speed (fst r), snd r))
             (read FullStep after_fast_turns (s11 1 1)) = Some (464, DIR_NONE) /\
  _count after_fast_turns * (1000 / _period after_fast_turns) = 66000 /\
  464 <> 66000.
Proof.
  repeat split; try (vm_compute; reflexivity). lia.
Qed.

(** C5, amended: the rate is kept in 16 bits.  On a poll of a reachable
    object that ends the window ([millis() - lastBoundary >= window]) the
    stored rate becomes [count * (1000 / window)] reduced modulo 2^16, with
    the division done first and truncating, where [count] includes the event
    of this very poll; it is exactly [count * (1000 / window)] when that
    product is below 2^16; the count is reset to 0 and the last boundary is
    set to the clock value read for it.  Consequently N events polled inside
    one window of W ms, followed by a poll without event that ends the
    window, make [speed()] equal [N * (1000 / W)] when this is below 2^16,
    and a following window without events makes the rate 0. *)
Theorem C5_rate_at_window_boundary (m : step_mode) (e : MD_REncoder) :
  reachable m e ->
  (forall i e' ev,
      window_over e i = true -> read m e i = Some (e', ev) ->
      speed e' = wrap16 (counted e ev * (1000 / _period e)) /\
      (counted e ev * (1000 / _period e) < 2 ^ 16 ->
       speed e' = counted e ev * (1000 / _period e)) /\
      _count e' = 0 /\ _timeLast e' = millis2 i) /\
  (forall ins e1 evs i e2,
      _count e = 0 ->
      within m e ins -> reads m e ins = Some (e1, evs) ->
      window_over e1 i = true -> read m e1 i = Some (e2, DIR_NONE) ->
      clicks evs * (1000 / _period e) < 2 ^ 16 ->
      speed e2 = clicks evs * (1000 / _period e) /\
      forall ins' e3 evs' i' e4,
        within m e2 ins' -> reads m e2 ins' = Some (e3, evs') ->
        clicks evs' = 0 ->
        window_over e3 i' = true -> read m e3 i' = Some (e4, DIR_NONE) ->
        speed e4 = 0).
Proof.
  intros He.
  pose proof (reachable_wf _ _ He) as [_ Hp Hc _ _].
  assert (Hq : 1 <= 1000 / _period e) by (apply Z.div_le_lower_bound; lia).
  split.
  - intros i e' ev Hw Hr.
    destruct (read_window_over _ _ _ _ _ Hw Hr) as (Hs & Hc' & Ht & _).
    unfold speed. repeat split; auto.
    intros Hlt. rewrite Hs. apply wrap16_small.
    pose proof (counted_range e ev Hc) as [Hc0 _]. simpl in Hlt. nia.
  - intros ins e1 evs i e2 Hz Hin Hrs Hw Hr Hlt.
    destruct (reads_within m ins e e1 evs Hc Hin Hrs) as (Hc1 & _ & _ & Hp1).
    destruct (read_window_over _ _ _ _ _ Hw Hr) as (Hs2 & Hc2 & _ & Hp2).
    pose proof (clicks_nonneg evs) as Hn.
    assert (Hsmall : wrap16 (clicks evs) = clicks evs).
    { apply wrap16_small. simpl in Hlt. nia. }
    split.
    + unfold speed. rewrite Hs2. unfold counted. simpl (DIR_NONE =? DIR_NONE).
      cbv iota. rewrite Hc1, Hz, Z.add_0_l, Hsmall, Hp1.
      apply wrap16_small. simpl in Hlt. nia.
    + intros ins' e3 evs' i' e4 Hin' Hrs' Hz' Hw' Hr'.
      assert (Hc2' : is_uint16 (_count e2)) by (rewrite Hc2; unfold is_uint16; lia).
      destruct (reads_within m ins' e2 e3 evs' Hc2' Hin' Hrs') as (Hc3 & _).
      destruct (read_window_over _ _ _ _ _ Hw' Hr') as (Hs4 & _).
      unfold speed. rewrite Hs4. unfold counted. simpl (DIR_NONE =? DIR_NONE).
      cbv iota. rewrite Hc3, Hc2, Hz'. reflexivity.
Qed.

Lemma C5_rate_at_window_boundary_witness :
  reachable FullStep (new 2 3) /\
  reads FullStep (new 2 3) three_turns
    = Some (after_three_turns,
            [DIR_NONE; DIR_NONE; DIR_NONE; DIR_CW;
             DIR_NONE; DIR_NONE; DIR_NONE; DIR_CW;
             DIR_NONE; DIR_NONE; DIR_NONE; DIR_CW]) /\
  read FullStep after_three_turns (s11 500 500)
    = Some (after_first_window, DIR_NONE) /\
  speed after_first_window = 3 * (1000 / 500).
Proof.
  assert (R : reachable FullStep (new 2 3))
    by (constructor; unfold is_uint8; lia).
  split; [exact R|]. split; [reflexivity|]. split; [reflexivity|].
  refine (proj1 (proj2 (C5_rate_at_window_boundary FullStep (new 2 3) R)
                   three_turns after_three_turns
                   [DIR_NONE; DIR_NONE; DIR_NONE; DIR_CW;
                    DIR_NONE; DIR_NONE; DIR_NONE; DIR_CW;
                    DIR_NONE; DIR_NONE; DIR_NONE; DIR_CW]
                   (s11 500 500) after_first_window _ _ _ _ _ _)).
  - reflexivity.
  - vm_compute. repeat split.
  - vm_compute. reflexivity.
  - vm_compute. reflexivity.
  - vm_compute. reflexivity.
  - vm_compute. reflexivity.
Defined.

(** The run above continued: a window in which nothing turns brings the
    rate from 6 back to 0 at its end. *)
Example rate_decays_to_zero :
  window_over after_first_window (s11 600 600) = false /\
  option_map (fun r => (speed (fst r), _timeLast (fst r), snd r))
             (reads FullStep after_first_window [s11 600 600; s11 1000 1001])
    = Some (0, 1001, [DIR_NONE; DIR_NONE]).
Proof. split; vm_compute; reflexivity. Qed.

(** * Repeated and out-of-sequence samples *)

Lemma table_settles (m : step_mode) (s : Z) (i : PollEnv) :
  In s (stored m) -> settles_at m s (pinstate i) = true.
Proof.
  intros Hs. apply (pinstates_forall (settles_at m s)).
  revert s Hs.
  apply (stored_forall m (fun s => forallb (settles_at m s) all_pinstates)).
  destruct m; vm_compute; reflexivity.
Qed.

(** The walk over a repeated sample from an entry that is its own successor. *)
Lemma decode_fixed (m : step_mode) (s x : Z) (n : nat) :
  ttable_at m (Z.land s 0xf) x = Some s -> Z.land s 0x30 = DIR_NONE ->
  decode m s (repeat x n) = Some (s, repeat DIR_NONE n).
Proof.
  intros Ht He. induction n as [|n IH]; simpl; [reflexivity|].
  rewrite Ht. simpl in IH. rewrite IH, He. reflexivity.
Qed.

Lemma map_pinstate_same (i0 : PollEnv) (ins : list PollEnv) :
  Forall (fun i => lines i = lines i0) ins ->
  map pinstate ins = repeat (pinstate i0) (length ins).
Proof.
  induction 1 as [|i ins Hi _ IH]; simpl; [reflexivity|].
  rewrite IH, (pinstate_of_lines i), Hi. reflexivity.
Qed.

Lemma lines_of_pinstate_1 (i : PollEnv) : lines i = L01 -> pinstate i = 1.
Proof. intros H. rewrite pinstate_of_lines, H. reflexivity. Qed.

Lemma lines_of_pinstate_2 (i : PollEnv) : lines i = L10 -> pinstate i = 2.
Proof. intros H. rewrite pinstate_of_lines, H. reflexivity. Qed.

Lemma table_second_poll (m : step_mode) (s : Z) (i : PollEnv) :
  In s (stored m) -> second_poll_at m s (pinstate i) = true.
Proof.
  intros Hs. apply (pinstates_forall (second_poll_at m s)).
  revert s Hs.
  apply (stored_forall m (fun s => forallb (second_poll_at m s) all_pinstates)).
  destruct m; vm_compute; reflexivity.
Qed.

(** C6, as the claim states it, fails: after the sample 01, a poll of 10
    resets the state to the start node, and the second poll of the same 10
    changes the stored state again, to [R_CCW_BEGIN].  And after a poll
    that returned an event, the second poll of the same sample changes the
    stored entry too: it drops the emit bits. *)
Lemma C6_second_identical_poll_changes_state :
  read FullStep (new 2 3) (s01 0 0) = Some (on_cw_begin, DIR_NONE) /\
  read FullStep on_cw_begin (s10 0 0) = Some (new 2 3, DIR_NONE) /\
  read FullStep (new 2 3) (s10 0 0) = Some (on_ccw_begin, DIR_NONE) /\
  _state on_ccw_begin <> _state (new 2 3) /\
  read FullStep before_cw_click (s11 0 0) = Some (after_cw_click, DIR_CW) /\
  option_map (fun r => (_state (fst r), snd r))
             (read FullStep after_cw_click (s11 0 0))
    = Some (R_START, DIR_NONE) /\
  R_START <> _state after_cw_click.
Proof.
  repeat split; try reflexivity; vm_compute; discriminate.
Qed.

(** C6, amended: in either mode, when a reachable object is polled with a
    sample and then again with the same sample, the second and all later
    identical polls return no event.  The second poll leaves the automaton
    on the node the first poll found; the stored entry is then that node,
    so it is unchanged when the first poll returned no event and only loses
    its emit bits when the first poll returned one.  The one exception:
    when the first poll landed on a detent node ([R_START], or [R_START_M]
    in half-step mode) with the sample 01 or 10, the second poll moves to
    another node.  The third and every later identical poll leave the
    stored state as the second left it. *)
Theorem C6_repeated_sample
        (m : step_mode) (e e1 e2 : MD_REncoder) (i1 i2 : PollEnv) (ev1 ev2 : Z) :
  reachable m e ->
  read m e i1 = Some (e1, ev1) ->
  lines i2 = lines i1 ->
  read m e1 i2 = Some (e2, ev2) ->
  ev2 = DIR_NONE /\
  (on_detent m (_state e1) = false \/ lines i1 = L00 \/ lines i1 = L11 ->
   _state e2 = node e1 /\ (ev1 = DIR_NONE -> _state e2 = _state e1)) /\
  (on_detent m (_state e1) = true -> lines i1 = L01 \/ lines i1 = L10 ->
   node e2 <> node e1) /\
  (ev1 <> DIR_NONE -> _state e2 <> _state e1) /\
  forall ins, Forall (fun i => lines i = lines i1) ins ->
    exists e3, reads m e2 ins = Some (e3, repeat DIR_NONE (length ins)) /\
               _state e3 = _state e2.
Proof.
  intros He H1 Hl H2.
  pose proof (reachable_decodable _ _ He) as D.
  pose proof (read_decodable _ _ _ _ _ D H1) as D1.
  pose proof (read_decodable _ _ _ _ _ D1 H2) as D2.
  destruct (read_inv _ _ _ _ _ H1) as (T1 & E1 & _).
  destruct (read_inv _ _ _ _ _ H2) as (T2 & E2 & _).
  assert (Hx : pinstate i2 = pinstate i1)
    by (rewrite !pinstate_of_lines, Hl; reflexivity).
  rewrite Hx in T2. unfold node in T1, T2.
  pose proof (table_settles m (_state e) i1 (proj1 D)) as S.
  unfold settles_at in S. rewrite T1, T2 in S.
  apply andb_true_iff in S. destruct S as [S0 S3].
  apply Z.eqb_eq in S0.
  destruct (ttable_at m (Z.land (_state e2) 15) (pinstate i1)) as [s3|] eqn:T3;
    [|discriminate].
  apply Z.eqb_eq in S3. subst s3.
  assert (Ev2 : ev2 = DIR_NONE) by congruence.
  pose proof (table_second_poll m (_state e) i1 (proj1 D)) as P.
  unfold second_poll_at in P. rewrite T1, T2 in P.
  apply andb_true_iff in P. destruct P as [P1 P2].
  split; [exact Ev2|]. split; [|split; [|split]].
  - intros Hcase.
    assert (Hc : on_detent m (_state e1)
                 && ((pinstate i1 =? 1) || (pinstate i1 =? 2)) = false).
    { destruct Hcase as [Hd | [Hd | Hd]].
      - rewrite Hd. reflexivity.
      - rewrite pinstate_of_lines, Hd. apply andb_false_r.
      - rewrite pinstate_of_lines, Hd. apply andb_false_r. }
    rewrite Hc in P2. apply Z.eqb_eq in P2.
    split; [exact P2|].
    intros Hn. rewrite <- E1 in P1. rewrite Hn in P1.
    rewrite Z.eqb_refl in P1. apply Z.eqb_eq in P1. congruence.
  - intros Hd Hside.
    assert (Hc : (pinstate i1 =? 1) || (pinstate i1 =? 2) = true).
    { destruct Hside as [Hs | Hs].
      - rewrite (lines_of_pinstate_1 i1 Hs). reflexivity.
      - rewrite (lines_of_pinstate_2 i1 Hs). reflexivity. }
    rewrite Hd, Hc in P2. cbn [andb] in P2.
    apply negb_true_iff, Z.eqb_neq in P2. exact P2.
  - intros Hn Heq. apply Hn. rewrite E1, <- Heq, <- E2. exact Ev2.
  - intros ins Hins.
    destruct (reads_decode m ins e2 (_state e2) (repeat DIR_NONE (length ins)))
      as [e3 [Hr [Hs _]]].
    + exact (proj2 D2).
    + rewrite (map_pinstate_same i1 ins Hins). apply decode_fixed; assumption.
    + exists e3. split; assumption.
Qed.

Lemma C6_repeated_sample_witness :
  reachable FullStep on_cw_begin /\
  read FullStep on_cw_begin (s10 0 0) = Some (new 2 3, DIR_NONE) /\
  lines (s10 1 1) = lines (s10 0 0) /\
  read FullStep (new 2 3) (s10 1 1) = Some (on_ccw_begin, DIR_NONE) /\
  DIR_NONE = DIR_NONE /\
  (on_detent FullStep (_state (new 2 3)) = false \/
   lines (s10 0 0) = L00 \/ lines (s10 0 0) = L11 ->
   _state on_ccw_begin = node (new 2 3) /\
   (DIR_NONE = DIR_NONE -> _state on_ccw_begin = _state (new 2 3))) /\
  (on_detent FullStep (_state (new 2 3)) = true ->
   lines (s10 0 0) = L01 \/ lines (s10 0 0) = L10 ->
   node on_ccw_begin <> node (new 2 3)) /\
  (DIR_NONE <> DIR_NONE -> _state on_ccw_begin <> _state (new 2 3)) /\
  forall ins, Forall (fun i => lines i = lines (s10 0 0)) ins ->
    exists e3,
      reads FullStep on_ccw_begin ins = Some (e3, repeat DIR_NONE (length ins)) /\
      _state e3 = _state on_ccw_begin.
Proof.
  assert (R : reachable FullStep on_cw_begin).
  { apply (reach_read FullStep (new 2 3) (s01 0 0) on_cw_begin DIR_NONE).
    - constructor; unfold is_uint8; lia.
    - unfold is_uint32; simpl; lia.
    - unfold is_uint32; simpl; lia.
    - reflexivity. }
  split; [exact R|]. split; [reflexivity|]. split; [reflexivity|].
  split; [reflexivity|].
  exact (C6_repeated_sample FullStep on_cw_begin (new 2 3) on_ccw_begin
           (s10 0 0) (s10 1 1) DIR_NONE DIR_NONE R eq_refl eq_refl eq_refl).
Defined.

Lemma pinstate_jump (prev cur : PollEnv) :
  jump prev cur -> pinstate cur = 3 - pinstate prev.
Proof.
  unfold jump, pinstate. intros [Ha Hb]. rewrite Ha, Hb.
  destruct (lineA prev), (lineB prev); reflexivity.
Qed.

(** C7, as the claim states it, fails in its general part: after the
    samples 01 and 10 the state is back on the start node, and the next
    sample 01, which differs from 10 in both lines, does not leave it there
    but advances it to [R_CW_BEGIN]. *)
Lemma C7_jump_on_start_node_advances :
  read FullStep (new 2 3) (s01 0 0) = Some (on_cw_begin, DIR_NONE) /\
  read FullStep on_cw_begin (s10 0 0) = Some (new 2 3, DIR_NONE) /\
  jump (s10 0 0) (s01 0 0) /\
  read FullStep (new 2 3) (s01 0 0) = Some (on_cw_begin, DIR_NONE) /\
  _state on_cw_begin = Full.R_CW_BEGIN /\
  _state on_cw_begin <> R_START.
Proof.
  repeat split; try reflexivity. vm_compute. discriminate.
Qed.

(** C7, amended: in full-step mode, from a reachable object on the rest
    node, the polls of 00, 01 and then the out-of-sequence 10 return no
    event and leave the state on [R_START]; from there every further
    sequence of samples gives the events it gives on the rest node, so the
    cycle 11, 01, 00, 10, 11 gives one clockwise event.  More generally, a
    sample that differs in both lines from the sample of the poll before
    routes the state to [R_START] with no event, on every node and for
    every such sample but one case: on the start node the samples 01 and 10
    begin a new cycle, on [R_CW_BEGIN] and [R_CCW_BEGIN], whatever the
    sample before was. *)
Theorem C7_out_of_sequence_resets (e : MD_REncoder) :
  reachable FullStep e ->
  (node e = R_START ->
   forall ins, map lines ins = [L00; L01; L10] ->
     exists e',
       reads FullStep e ins = Some (e', [DIR_NONE; DIR_NONE; DIR_NONE]) /\
       _state e' = R_START /\
       (forall more, events FullStep e' more = events FullStep e more) /\
       (forall cw, map lines cw = [L11; L01; L00; L10; L11] ->
          events FullStep e' cw
            = Some [DIR_NONE; DIR_NONE; DIR_NONE; DIR_NONE; DIR_CW])) /\
  (forall prev cur e1 ev1,
      read FullStep e prev = Some (e1, ev1) ->
      jump prev cur ->
      (node e1 <> R_START \/ lines cur = L00 \/ lines cur = L11 ->
       exists e2, read FullStep e1 cur = Some (e2, DIR_NONE) /\
                  _state e2 = R_START) /\
      (node e1 = R_START -> lines cur = L01 ->
       exists e2, read FullStep e1 cur = Some (e2, DIR_NONE) /\
                  _state e2 = Full.R_CW_BEGIN) /\
      (node e1 = R_START -> lines cur = L10 ->
       exists e2, read FullStep e1 cur = Some (e2, DIR_NONE) /\
                  _state e2 = Full.R_CCW_BEGIN)).
Proof.
  intros He. pose proof (reachable_decodable _ _ He) as D.
  split.
  - intros Hn ins Hins.
    destruct (reads_from_start FullStep e ins _ _ R_START
                [DIR_NONE; DIR_NONE; DIR_NONE] D Hn Hins)
      as (e' & Hr & Hs & D' & _); [reflexivity|].
    assert (Hn' : node e' = R_START) by (unfold node; rewrite Hs; reflexivity).
    exists e'. repeat split; auto.
    + intros more. apply events_same_node; congruence.
    + intros cw Hcw.
      destruct (reads_from_start FullStep e' cw _ _ 0x10
                  [DIR_NONE; DIR_NONE; DIR_NONE; DIR_NONE; DIR_CW] D' Hn' Hcw)
        as (e2 & _ & _ & _ & Hev); [reflexivity | exact Hev].
  - intros prev cur e1 ev1 H1 Hj.
    pose proof (read_decodable _ _ _ _ _ D H1) as D1.
    destruct (read_inv _ _ _ _ _ H1) as (T1 & _).
    assert (OnStart : forall l st,
               node e1 = R_START -> lines cur = l ->
               ttable_at FullStep R_START (pin_of_lines l) = Some st ->
               Z.land st 0x30 = DIR_NONE ->
               exists e2, read FullStep e1 cur = Some (e2, DIR_NONE) /\
                          _state e2 = st).
    { intros l st Hn Hcur Ht Hev.
      assert (T2 : ttable_at FullStep (node e1) (pinstate cur) = Some st)
        by (rewrite Hn, pinstate_of_lines, Hcur; exact Ht).
      destruct (read_some FullStep e1 cur st T2 (proj2 D1)) as [e2 [Hr Hs]].
      rewrite Hev in Hr. exists e2. split; assumption. }
    split; [|split].
    + intros Hcase.
      destruct (Z.eq_dec (node e1) R_START) as [Hn|Hn].
      * destruct Hcase as [Hc | [Hc | Hc]]; [contradiction | |].
        -- apply (OnStart L00 R_START Hn Hc); reflexivity.
        -- apply (OnStart L11 R_START Hn Hc); reflexivity.
      * assert (S : full_jump_resets (_state e) (pinstate prev) = true).
        { apply (pinstates_forall (full_jump_resets (_state e))).
          generalize (_state e) (proj1 D).
          apply (stored_forall FullStep
                   (fun s => forallb (full_jump_resets s) all_pinstates)).
          vm_compute. reflexivity. }
        unfold full_jump_resets in S. unfold node in T1. rewrite T1 in S.
        apply orb_true_iff in S. destruct S as [S|S].
        { apply Z.eqb_eq in S. contradiction. }
        rewrite <- (pinstate_jump prev cur Hj) in S.
        destruct (ttable_at FullStep (Z.land (_state e1) 15) (pinstate cur))
          as [s2|] eqn:T2; [|discriminate].
        apply Z.eqb_eq in S. subst s2.
        destruct (read_some FullStep e1 cur R_START T2 (proj2 D1))
          as [e2 [Hr Hs]].
        exists e2. split; assumption.
    + intros Hn Hc. apply (OnStart L01 Full.R_CW_BEGIN Hn Hc); reflexivity.
    + intros Hn Hc. apply (OnStart L10 Full.R_CCW_BEGIN Hn Hc); reflexivity.
Qed.

Lemma C7_out_of_sequence_resets_witness :
  reachable FullStep (new 2 3) /\
  read FullStep (new 2 3) (s01 0 0) = Some (on_cw_begin, DIR_NONE) /\
  jump (s01 0 0) (s10 0 0) /\
  (node on_cw_begin <> R_START \/
   lines (s10 0 0) = L00 \/ lines (s10 0 0) = L11) /\
  exists e2, read FullStep on_cw_begin (s10 0 0) = Some (e2, DIR_NONE) /\
             _state e2 = R_START.
Proof.
  assert (R : reachable FullStep (new 2 3))
    by (constructor; unfold is_uint8; lia).
  assert (J : jump (s01 0 0) (s10 0 0)) by (split; reflexivity).
  assert (N : node on_cw_begin <> R_START \/
              lines (s10 0 0) = L00 \/ lines (s10 0 0) = L11)
    by (left; vm_compute; discriminate).
  split; [exact R|]. split; [reflexivity|]. split; [exact J|].
  split; [exact N|].
  exact (proj1 (proj2 (C7_out_of_sequence_resets (new 2 3) R)
                  (s01 0 0) (s10 0 0) on_cw_begin DIR_NONE eq_refl J) N).
Defined.

(** * The decoder in half-step mode *)

(** C8, as the claim states it, fails: in half-step mode the polls of
    00, 01, 11, 10, 00 from the constructed object return two events, on the
    11 and on the closing 00, and both are counter-clockwise. *)
Lemma C8_cycle_00_01_11_10_00_is_counter_clockwise :
  events HalfStep (new 2 3) [s00 0 0; s01 0 0; s11 0 0; s10 0 0; s00 0 0]
    = Some [DIR_NONE; DIR_NONE; DIR_CCW; DIR_NONE; DIR_CCW] /\
  DIR_CCW <> DIR_CW.
Proof.
  split; [reflexivity|]. vm_compute. discriminate.
Qed.

(** C8, amended: in half-step mode a poll of a reachable object returns an
    event only on the samples 00 and 11; from the rest node the polls of
    00, 01, 11, 10, 00 return exactly two events, one on the 11 and one on
    the closing 00, both counter-clockwise, and the polls of
    00, 10, 11, 01, 00 return two clockwise events at the same places. *)
Theorem C8_half_step (e : MD_REncoder) :
  reachable HalfStep e ->
  (forall i e' ev,
      read HalfStep e i = Some (e', ev) -> ev <> DIR_NONE ->
      (lines i = L00 \/ lines i = L11) /\ (ev = DIR_CW \/ ev = DIR_CCW)) /\
  (node e = R_START ->
   forall ccw cw,
     map lines ccw = [L00; L01; L11; L10; L00] ->
     map lines cw  = [L00; L10; L11; L01; L00] ->
     events HalfStep e ccw
       = Some [DIR_NONE; DIR_NONE; DIR_CCW; DIR_NONE; DIR_CCW] /\
     events HalfStep e cw
       = Some [DIR_NONE; DIR_NONE; DIR_CW; DIR_NONE; DIR_CW]).
Proof.
  intros He. pose proof (reachable_decodable _ _ He) as D.
  split.
  - intros i e' ev Hr Hev.
    destruct (read_inv _ _ _ _ _ Hr) as (Ht & Hevs & _).
    assert (H : half_emit_at (_state e) (pinstate i) = true).
    { apply (pinstates_forall (half_emit_at (_state e))).
      generalize (_state e) (proj1 D).
      apply (stored_forall HalfStep (fun s => forallb (half_emit_at s) all_pinstates)).
      vm_compute. reflexivity. }
    unfold half_emit_at in H. unfold node in Ht. rewrite Ht in H.
    rewrite <- Hevs in H.
    apply orb_true_iff in H. destruct H as [H|H].
    { apply Z.eqb_eq in H. contradiction. }
    apply andb_true_iff in H. destruct H as [Hx Hd]. split.
    + apply orb_true_iff in Hx. destruct Hx as [Hx|Hx]; apply Z.eqb_eq in Hx.
      * left. apply lines_of_pinstate_0, Hx.
      * right. apply lines_of_pinstate_3, Hx.
    + apply orb_true_iff in Hd. destruct Hd as [Hd|Hd]; apply Z.eqb_eq in Hd; auto.
  - intros Hn ccw cw Hccw Hcw. split.
    + destruct (reads_from_start HalfStep e ccw _ _ (Z.lor Half.R_START_M DIR_CCW)
                  [DIR_NONE; DIR_NONE; DIR_CCW; DIR_NONE; DIR_CCW] D Hn Hccw)
        as (e' & _ & _ & _ & Hev); [reflexivity | exact Hev].
    + destruct (reads_from_start HalfStep e cw _ _ (Z.lor Half.R_START_M DIR_CW)
                  [DIR_NONE; DIR_NONE; DIR_CW; DIR_NONE; DIR_CW] D Hn Hcw)
        as (e' & _ & _ & _ & Hev); [reflexivity | exact Hev].
Qed.

Lemma C8_half_step_witness :
  reachable HalfStep (new 2 3) /\ node (new 2 3) = R_START /\
  events HalfStep (new 2 3) [s00 0 0; s01 1 1; s11 2 2; s10 3 3; s00 4 4]
    = Some [DIR_NONE; DIR_NONE; DIR_CCW; DIR_NONE; DIR_CCW] /\
  events HalfStep (new 2 3) [s00 0 0; s10 1 1; s11 2 2; s01 3 3; s00 4 4]
    = Some [DIR_NONE; DIR_NONE; DIR_CW; DIR_NONE; DIR_CW].
Proof.
  assert (R : reachable HalfStep (new 2 3))
    by (constructor; unfold is_uint8; lia).
  split; [exact R|]. split; [reflexivity|].
  refine (proj2 (C8_half_step (new 2 3) R) _ _ _ _ _); reflexivity.
Defined.

(** * Further properties of the decoder *)

(** A check that holds for every stored entry and pin state holds for every
    poll of an object that holds a stored entry. *)
Lemma table_check (m : step_mode) (P : Z -> Z -> bool) :
  forallb (fun s => forallb (P s) all_pinstates) (stored m) = true ->
  forall s i, In s (stored m) -> P s (pinstate i) = true.
Proof.
  intros H s i Hs. apply (pinstates_forall (P s)).
  revert s Hs. apply (stored_forall m (fun s => forallb (P s) all_pinstates)).
  exact H.
Qed.

Lemma last_cons {A : Type} (x d : A) (l : list A) :
  last (x :: l) d = last l x.
Proof.
  revert x d. induction l as [|y l IH]; intros x d; [reflexivity|].
  change (last (x :: y :: l) d) with (last (y :: l) d).
  rewrite (IH y d), (IH y x). reflexivity.
Qed.

Lemma position_start (m : step_mode) (e : MD_REncoder) :
  node e = R_START -> position m (_state e) = 3 /\ offset m (_state e) = 0 /\
                      progress m (_state e) = 0.
Proof.
  unfold node, position, offset, progress, info_of. intros H. rewrite H.
  destruct m; repeat split.
Qed.

(** On a clean signal the walk keeps quarter steps and events in balance. *)
Lemma decode_counts (m : step_mode) (ins : list PollEnv) :
  forall st st' evs,
    In st (stored m) ->
    clean (position m st) (map pinstate ins) ->
    decode m st (map pinstate ins) = Some (st', evs) ->
    travel (position m st) (map pinstate ins) + offset m st
      = steps_per_click m * net evs + offset m st' /\
    last (map pinstate ins) (position m st) = position m st' /\
    In st' (stored m).
Proof.
  induction ins as [|i ins IH]; intros st st' evs Hst Hc Hd.
  - simpl in *. inversion Hd. subst. repeat split; auto.
    unfold net. simpl. lia.
  - cbn [map] in *. cbn [clean] in Hc. destruct Hc as [Hx Hc].
    cbn [decode] in Hd.
    destruct (table_closed m st i Hst) as [st1 [Ht Hin1]].
    rewrite Ht in Hd.
    destruct (decode m st1 (map pinstate ins)) as [[st2 evs2]|] eqn:Hd2;
      [|discriminate].
    inversion Hd. subst st2 evs. clear Hd.
    assert (K : counts_at m st (pinstate i) = true).
    { apply (table_check m (counts_at m));
        [destruct m; vm_compute; reflexivity | exact Hst]. }
    unfold counts_at in K.
    destruct (Z.eqb_spec (pinstate i) (3 - position m st)) as [E|_];
      [contradiction|].
    rewrite Ht in K. apply andb_true_iff in K. destruct K as [K1 K2].
    apply Z.eqb_eq in K1. apply Z.eqb_eq in K2.
    rewrite <- K1 in Hc.
    destruct (IH st1 st' evs2 Hin1 Hc Hd2) as (I1 & I2 & I3).
    rewrite K1 in I1, I2.
    cbn [travel]. change (net (Z.land st1 48 :: evs2))
      with (direction (Z.land st1 48) + net evs2).
    rewrite last_cons, Z.mul_add_distr_l.
    repeat split; auto. lia.
Qed.

Lemma offset_bounds (m : step_mode) (st : Z) :
  In st (stored m) -> offset_ok m st = true.
Proof.
  revert st. apply stored_forall. destruct m; vm_compute; reflexivity.
Qed.

(** On a clean signal that starts from rest, the signed sum of the events
    follows the quarter steps travelled, in either mode. *)
Lemma counts_turns (m : step_mode) (e : MD_REncoder) (ins : list PollEnv) :
  reachable m e -> node e = R_START ->
  clean 3 (map pinstate ins) ->
  exists e' evs,
    reads m e ins = Some (e', evs) /\ events m e ins = Some evs /\
    In (_state e') (stored m) /\
    travel 3 (map pinstate ins)
      = steps_per_click m * net evs + offset m (_state e') /\
    last (map pinstate ins) 3 = position m (_state e').
Proof.
  intros He Hn Hc.
  destruct (reachable_decodable _ _ He) as [Hs Hp].
  destruct (position_start m e Hn) as (P3 & O0 & _).
  destruct (decode_total m ins (_state e) Hs) as [st' [evs [Hd Hin]]].
  rewrite <- P3 in Hc.
  destruct (decode_counts m ins (_state e) st' evs Hs Hc Hd) as (B & L & _).
  destruct (reads_decode m ins e st' evs Hp Hd) as [e' [Hr [Hst _]]].
  exists e', evs. rewrite P3, O0 in *. subst st'.
  repeat split; auto.
  - unfold events. rewrite Hr. reflexivity.
  - lia.
Qed.

(** X1: in full-step mode, when the signal is clean (successive samples
    differ in at most one line) and the decoder starts on the rest node with
    the lines at 11, the clockwise events minus the counter-clockwise events
    are never more than three quarter steps away from the travel of the
    knob, and whenever the signal is back at 11 they are exactly the number
    of whole turns of the quadrature cycle: 4 * net = travel. *)
Theorem full_step_counts_whole_cycles (e : MD_REncoder) (ins : list PollEnv) :
  reachable FullStep e -> node e = R_START ->
  clean 3 (map pinstate ins) ->
  exists evs,
    events FullStep e ins = Some evs /\
    -3 <= travel 3 (map pinstate ins) - 4 * net evs <= 3 /\
    (last (map pinstate ins) 3 = 3 ->
     4 * net evs = travel 3 (map pinstate ins)).
Proof.
  intros He Hn Hc.
  destruct (counts_turns FullStep e ins He Hn Hc) as (e' & evs & _ & Hev & Hin & B & L).
  exists evs. split; [exact Hev|].
  pose proof (offset_bounds FullStep _ Hin) as O. unfold offset_ok in O.
  repeat (apply andb_true_iff in O; destruct O as [O ?]).
  cbn [steps_per_click] in *.
  split; [lia|].
  intros HL. rewrite HL in L. rewrite <- L in *.
  cbn [Z.eqb Pos.eqb] in *. lia.
Qed.

Lemma full_step_counts_whole_cycles_witness :
  reachable FullStep (new 2 3) /\ node (new 2 3) = R_START /\
  clean 3 (map pinstate turn_and_wiggle) /\
  exists evs,
    events FullStep (new 2 3) turn_and_wiggle = Some evs /\
    -3 <= travel 3 (map pinstate turn_and_wiggle) - 4 * net evs <= 3 /\
    (last (map pinstate turn_and_wiggle) 3 = 3 ->
     4 * net evs = travel 3 (map pinstate turn_and_wiggle)).
Proof.
  assert (R : reachable FullStep (new 2 3))
    by (constructor; unfold is_uint8; lia).
  assert (C : clean 3 (map pinstate turn_and_wiggle))
    by (cbv; repeat split; intros H; discriminate H).
  split; [exact R|]. split; [reflexivity|]. split; [exact C|].
  exact (full_step_counts_whole_cycles (new 2 3) _ R eq_refl C).
Defined.

(** X2: in half-step mode, under the same conditions, the clockwise events
    minus the counter-clockwise events are never more than one quarter step
    away from half the travel, and whenever the signal is on a rest
    position, 11 or 00, they are exactly the number of half cycles:
    2 * net = travel. *)
Theorem half_step_counts_half_cycles (e : MD_REncoder) (ins : list PollEnv) :
  reachable HalfStep e -> node e = R_START ->
  clean 3 (map pinstate ins) ->
  exists evs,
    events HalfStep e ins = Some evs /\
    -1 <= travel 3 (map pinstate ins) - 2 * net evs <= 1 /\
    (last (map pinstate ins) 3 = 3 \/ last (map pinstate ins) 3 = 0 ->
     2 * net evs = travel 3 (map pinstate ins)).
Proof.
  intros He Hn Hc.
  destruct (counts_turns HalfStep e ins He Hn Hc) as (e' & evs & _ & Hev & Hin & B & L).
  exists evs. split; [exact Hev|].
  pose proof (offset_bounds HalfStep _ Hin) as O. unfold offset_ok in O.
  repeat (apply andb_true_iff in O; destruct O as [O ?]).
  cbn [steps_per_click] in *.
  split; [lia|].
  intros [HL|HL]; rewrite HL in L; rewrite <- L in *;
    cbn [Z.eqb Pos.eqb andb] in *; lia.
Qed.

Lemma half_step_counts_half_cycles_witness :
  reachable HalfStep (new 2 3) /\ node (new 2 3) = R_START /\
  clean 3 (map pinstate half_turns_back) /\
  exists evs,
    events HalfStep (new 2 3) half_turns_back = Some evs /\
    -1 <= travel 3 (map pinstate half_turns_back) - 2 * net evs <= 1 /\
    (last (map pinstate half_turns_back) 3 = 3 \/
     last (map pinstate half_turns_back) 3 = 0 ->
     2 * net evs = travel 3 (map pinstate half_turns_back)).
Proof.
  assert (R : reachable HalfStep (new 2 3))
    by (constructor; unfold is_uint8; lia).
  assert (C : clean 3 (map pinstate half_turns_back))
    by (cbv; repeat split; intros H; discriminate H).
  split; [exact R|]. split; [reflexivity|]. split; [exact C|].
  exact (half_step_counts_half_cycles (new 2 3) _ R eq_refl C).
Defined.

Lemma entry_checked (m : step_mode) (st : Z) :
  In st (stored m) -> entry_ok m st = true.
Proof.
  revert st. apply stored_forall. destruct m; vm_compute; reflexivity.
Qed.

(** X3: in either mode, what [read] returns on a reachable object is one of
    [DIR_NONE], [DIR_CW] and [DIR_CCW], never both emit bits at once. *)
Theorem read_returns_a_direction
        (m : step_mode) (e e' : MD_REncoder) (i : PollEnv) (ev : Z) :
  reachable m e -> read m e i = Some (e', ev) ->
  ev = DIR_NONE \/ ev = DIR_CW \/ ev = DIR_CCW.
Proof.
  intros He Hr.
  pose proof (read_decodable _ _ _ _ _ (reachable_decodable _ _ He) Hr) as [Hs _].
  destruct (read_inv _ _ _ _ _ Hr) as (_ & Hev & _).
  pose proof (entry_checked m _ Hs) as K. unfold entry_ok in K.
  repeat (apply andb_true_iff in K; destruct K as [K ?]).
  rewrite <- Hev in K.
  apply orb_true_iff in K. destruct K as [K|K];
    [apply orb_true_iff in K; destruct K as [K|K]|];
    apply Z.eqb_eq in K; auto.
Qed.

Lemma read_returns_a_direction_witness :
  reachable FullStep before_cw_click /\
  read FullStep before_cw_click (s11 0 0) = Some (after_cw_click, DIR_CW) /\
  (DIR_CW = DIR_NONE \/ DIR_CW = DIR_CW \/ DIR_CW = DIR_CCW).
Proof.
  split; [exact before_cw_click_reachable|]. split; [reflexivity|].
  exact (read_returns_a_direction FullStep before_cw_click after_cw_click
           (s11 0 0) DIR_CW before_cw_click_reachable eq_refl).
Defined.

(** X4: in either mode a poll of the sample 11 puts the automaton on the
    start node whatever node it was on, and from then on the decoder
    returns, for any further samples, the events a newly constructed one
    returns. *)
Theorem sample_11_resynchronises
        (m : step_mode) (e : MD_REncoder) (i : PollEnv) :
  reachable m e -> lines i = L11 ->
  exists e' ev,
    read m e i = Some (e', ev) /\ node e' = R_START /\
    forall pinA pinB more,
      events m e' more = events m (new pinA pinB) more.
Proof.
  intros He Hl.
  pose proof (reachable_decodable _ _ He) as D.
  destruct (wf_read_total m e i (reachable_wf _ _ He)) as [e' [ev Hr]].
  exists e', ev. split; [exact Hr|].
  destruct (read_inv _ _ _ _ _ Hr) as (Ht & _).
  assert (Hx : pinstate i = 3) by (rewrite pinstate_of_lines, Hl; reflexivity).
  pose proof (entry_checked m _ (proj1 D)) as K. unfold entry_ok in K.
  apply andb_true_iff in K. destruct K as [_ K].
  unfold node in Ht. rewrite Hx in Ht. rewrite Ht in K.
  apply Z.eqb_eq in K.
  split; [exact K|].
  intros pinA pinB more. apply events_same_node.
  - eapply read_decodable; eassumption.
  - apply wf_decodable, wf_new.
  - exact K.
Qed.

Lemma sample_11_resynchronises_witness :
  reachable FullStep on_cw_begin /\ lines (s11 5 5) = L11 /\
  exists e' ev,
    read FullStep on_cw_begin (s11 5 5) = Some (e', ev) /\ node e' = R_START /\
    forall pinA pinB more,
      events FullStep e' more = events FullStep (new pinA pinB) more.
Proof.
  assert (R : reachable FullStep on_cw_begin).
  { apply (reach_read FullStep (new 2 3) (s01 0 0) on_cw_begin DIR_NONE).
    - constructor; unfold is_uint8; lia.
    - unfold is_uint32; simpl; lia.
    - unfold is_uint32; simpl; lia.
    - reflexivity. }
  split; [exact R|]. split; [reflexivity|].
  exact (sample_11_resynchronises FullStep on_cw_begin (s11 5 5) R eq_refl).
Defined.

Lemma pinstate_not_00 (i : PollEnv) : lines i <> L00 -> pinstate i <> 0.
Proof.
  intros H E. apply H, lines_of_pinstate_0, E.
Qed.

(** Next to rest the walk stays next to rest, silent, until a 00 comes. *)
Lemma decode_quiet (m : step_mode) (ins : list PollEnv) :
  forall st,
    In st (stored m) -> near_rest m st = true ->
    Forall (fun i => lines i <> L00) ins ->
    exists st',
      decode m st (map pinstate ins)
      = Some (st', repeat DIR_NONE (length ins)).
Proof.
  induction ins as [|i ins IH]; intros st Hst Hn Hf.
  - exists st. reflexivity.
  - inversion Hf as [|? ? Hi Hf']. subst.
    pose proof (table_check m (quiet_at m)
                  ltac:(destruct m; vm_compute; reflexivity) st i Hst) as K.
    unfold quiet_at in K. rewrite Hn in K.
    apply pinstate_not_00, Z.eqb_neq in Hi. rewrite Hi in K.
    cbn [negb orb] in K.
    destruct (table_closed m st i Hst) as [st1 [Ht Hin1]].
    rewrite Ht in K. apply andb_true_iff in K. destruct K as [K1 K2].
    apply Z.eqb_eq in K2.
    destruct (IH st1 Hin1 K1 Hf') as [st' Hd].
    exists st'. cbn [map decode length repeat]. rewrite Ht, Hd, K2. reflexivity.
Qed.

(** X5: in either mode, from the start node no run of polls returns an
    event as long as no poll samples 00: bouncing among 11, 01 and 10,
    jumps between 01 and 10 included, never makes a click. *)
Theorem no_event_before_a_00
        (m : step_mode) (e : MD_REncoder) (ins : list PollEnv) :
  reachable m e -> node e = R_START ->
  Forall (fun i => lines i <> L00) ins ->
  events m e ins = Some (repeat DIR_NONE (length ins)).
Proof.
  intros He Hn Hf.
  pose proof (reachable_decodable _ _ He) as D.
  assert (N : near_rest m (_state e) = true).
  { unfold near_rest. unfold node in Hn. rewrite Hn. destruct m; reflexivity. }
  destruct (decode_quiet m ins (_state e) (proj1 D) N Hf) as [st' Hd].
  rewrite (events_decode m e ins D), Hd. reflexivity.
Qed.

Lemma no_event_before_a_00_witness :
  reachable HalfStep (new 2 3) /\ node (new 2 3) = R_START /\
  Forall (fun i => lines i <> L00)
         [s01 0 0; s10 1 1; s11 2 2; s10 3 3; s01 4 4; s01 5 5] /\
  events HalfStep (new 2 3)
         [s01 0 0; s10 1 1; s11 2 2; s10 3 3; s01 4 4; s01 5 5]
    = Some (repeat DIR_NONE 6).
Proof.
  assert (R : reachable HalfStep (new 2 3))
    by (constructor; unfold is_uint8; lia).
  assert (F : Forall (fun i => lines i <> L00)
                [s01 0 0; s10 1 1; s11 2 2; s10 3 3; s01 4 4; s01 5 5])
    by (repeat constructor; intros H; discriminate H).
  split; [exact R|]. split; [reflexivity|]. split; [exact F|].
  exact (no_event_before_a_00 HalfStep (new 2 3) _ R eq_refl F).
Defined.

(** Each poll adds at most one to the progress; an event costs a click. *)
Lemma decode_paces (m : step_mode) (ins : list PollEnv) :
  forall st st' evs,
    In st (stored m) ->
    decode m st (map pinstate ins) = Some (st', evs) ->
    steps_per_click m * clicks evs + progress m st'
      <= Z.of_nat (length ins) + progress m st /\
    In st' (stored m).
Proof.
  induction ins as [|i ins IH]; intros st st' evs Hst Hd.
  - simpl in Hd. inversion Hd. subst. split; [|exact Hst].
    unfold clicks. simpl. lia.
  - cbn [map decode] in Hd.
    destruct (table_closed m st i Hst) as [st1 [Ht Hin1]].
    rewrite Ht in Hd.
    destruct (decode m st1 (map pinstate ins)) as [[st2 evs2]|] eqn:Hd2;
      [|discriminate].
    inversion Hd. subst st2 evs. clear Hd.
    destruct (IH st1 st' evs2 Hin1 Hd2) as [I1 I2]. split; [|exact I2].
    pose proof (table_check m (paces_at m)
                  ltac:(destruct m; vm_compute; reflexivity) st i Hst) as K.
    unfold paces_at in K. rewrite Ht in K. apply Z.leb_le in K.
    rewrite clicks_cons, Z.mul_add_distr_l.
    cbn [length]. rewrite Nat2Z.inj_succ.
    unfold DIR_NONE in *. lia.
Qed.

(** X6: events cannot come faster than the table allows: over any run of
    polls of a reachable object, four times (full-step) or twice
    (half-step) the number of events is at most the number of polls plus
    three (plus one), and at most the number of polls when the run starts
    on the start node. *)
Theorem events_need_polls
        (m : step_mode) (e : MD_REncoder) (ins : list PollEnv) :
  reachable m e ->
  exists evs,
    events m e ins = Some evs /\
    steps_per_click m * clicks evs
      <= Z.of_nat (length ins) + (steps_per_click m - 1) /\
    (node e = R_START ->
     steps_per_click m * clicks evs <= Z.of_nat (length ins)).
Proof.
  intros He.
  pose proof (reachable_decodable _ _ He) as D.
  destruct (decode_total m ins (_state e) (proj1 D)) as [st' [evs [Hd Hin]]].
  exists evs. split.
  { rewrite (events_decode m e ins D), Hd. reflexivity. }
  destruct (decode_paces m ins (_state e) st' evs (proj1 D) Hd) as [P _].
  pose proof (offset_bounds m _ (proj1 D)) as O.
  pose proof (offset_bounds m _ Hin) as O'.
  unfold offset_ok in O, O'.
  repeat (apply andb_true_iff in O; destruct O as [O ?]).
  repeat (apply andb_true_iff in O'; destruct O' as [O' ?]).
  split; [lia|].
  intros Hn. destruct (position_start m e Hn) as (_ & _ & P0). lia.
Qed.

Lemma events_need_polls_witness :
  reachable FullStep before_cw_click /\
  exists evs,
    events FullStep before_cw_click [s11 0 0; s01 1 1] = Some evs /\
    steps_per_click FullStep * clicks evs
      <= Z.of_nat (length [s11 0 0; s01 1 1]) + (steps_per_click FullStep - 1) /\
    (node before_cw_click = R_START ->
     steps_per_click FullStep * clicks evs
       <= Z.of_nat (length [s11 0 0; s01 1 1])).
Proof.
  split; [exact before_cw_click_reachable|].
  exact (events_need_polls FullStep before_cw_click [s11 0 0; s01 1 1]
           before_cw_click_reachable).
Defined.

Lemma lxor_lines (prev cur : PollEnv) :
  (Z.lxor (pinstate prev) (pinstate cur) = 1 ->
   lineA cur = negb (lineA prev) /\ lineB cur = lineB prev) /\
  (Z.lxor (pinstate prev) (pinstate cur) = 2 ->
   lineB cur = negb (lineB prev) /\ lineA cur = lineA prev).
Proof.
  unfold pinstate.
  destruct (lineA prev), (lineB prev), (lineA cur), (lineB cur); simpl;
    split; intros H; try discriminate H; split; reflexivity.
Qed.

(** X7: in either mode the direction of an event is decided by the line
    that changed last: a poll returns a clockwise event only when, since
    the poll before, line A changed and line B did not, and a
    counter-clockwise event only when line B changed and line A did not. *)
Theorem direction_is_the_last_edge
        (m : step_mode) (e e1 e2 : MD_REncoder) (prev cur : PollEnv)
        (ev1 ev2 : Z) :
  reachable m e ->
  read m e prev = Some (e1, ev1) ->
  read m e1 cur = Some (e2, ev2) ->
  (ev2 = DIR_CW ->
   lineA cur = negb (lineA prev) /\ lineB cur = lineB prev) /\
  (ev2 = DIR_CCW ->
   lineB cur = negb (lineB prev) /\ lineA cur = lineA prev).
Proof.
  intros He H1 H2.
  pose proof (reachable_decodable _ _ He) as [Hs _].
  destruct (read_inv _ _ _ _ _ H1) as (T1 & _).
  destruct (read_inv _ _ _ _ _ H2) as (T2 & E2 & _).
  assert (K : edge_at m (_state e) (pinstate prev) (pinstate cur) = true).
  { apply (pinstates_forall (edge_at m (_state e) (pinstate prev))).
    apply (pinstates_forall
             (fun x1 => forallb (edge_at m (_state e) x1) all_pinstates)).
    revert Hs. generalize (_state e).
    apply (stored_forall m
             (fun s => forallb (fun x1 => forallb (edge_at m s x1) all_pinstates)
                               all_pinstates)).
    destruct m; vm_compute; reflexivity. }
  unfold edge_at in K. unfold node in T1, T2. rewrite T1, T2, <- E2 in K.
  destruct (lxor_lines prev cur) as [LA LB].
  split; intros Hev; rewrite Hev in K.
  - apply LA. simpl in K. apply Z.eqb_eq in K. exact K.
  - apply LB. simpl in K. apply Z.eqb_eq in K. exact K.
Qed.

Lemma direction_is_the_last_edge_witness :
  reachable FullStep (new 2 3) /\
  reads FullStep (new 2 3) [s01 0 0; s00 0 0; s10 0 0]
    = Some (before_cw_click, [DIR_NONE; DIR_NONE; DIR_NONE]) /\
  read FullStep before_cw_click (s11 0 0) = Some (after_cw_click, DIR_CW) /\
  lineA (s11 0 0) = negb (lineA (s10 0 0)) /\
  lineB (s11 0 0) = lineB (s10 0 0).
Proof.
  assert (R : reachable FullStep (new 2 3))
    by (constructor; unfold is_uint8; lia).
  split; [exact R|]. split; [reflexivity|]. split; [reflexivity|].
  assert (R2 : reachable FullStep
                 {| _pinA := 2; _pinB := 3; _state := Full.R_CW_NEXT;
                    _period := 500; _count := 0; _spd := 0; _timeLast := 0 |}).
  { apply (reachable_reads FullStep [s01 0 0; s00 0 0] (new 2 3) _
             [DIR_NONE; DIR_NONE] R).
    - repeat constructor; unfold is_uint32; simpl; lia.
    - reflexivity. }
  refine (proj1 (direction_is_the_last_edge FullStep _ before_cw_click
                   after_cw_click (s10 0 0) (s11 0 0) DIR_NONE DIR_CW
                   R2 _ _) _); reflexivity.
Defined.

(** * Further properties of the speed estimator *)

(** X8: every field of a reachable object fits its C type, the pins are
    the constructor's, the window stays in 1..1000, so [read] never divides
    by zero and the factor [1000 / window] lies in 1..1000. *)
Theorem fields_stay_in_range (m : step_mode) (e : MD_REncoder) :
  reachable m e ->
  is_uint8 (_pinA e) /\ is_uint8 (_pinB e) /\ is_uint8 (_state e) /\
  1 <= _period e <= 1000 /\ 1 <= 1000 / _period e <= 1000 /\
  is_uint16 (_count e) /\ is_uint16 (_spd e) /\ is_uint32 (_timeLast e).
Proof.
  intros He.
  assert (Pins : is_uint8 (_pinA e) /\ is_uint8 (_pinB e)).
  { induction He as [a b Ha Hb | e t He IH Ht | e i e' ev He IH H1 H2 Hr].
    - split; assumption.
    - unfold setPeriod. destruct (negb (t =? 0) && (t <=? 1000)); exact IH.
    - destruct (read_inv _ _ _ _ _ Hr) as (_ & _ & _ & HA & HB).
      rewrite HA, HB. exact IH. }
  destruct Pins as [PA PB].
  pose proof (reachable_wf _ _ He) as [Hs Hp Hc Hv Ht].
  pose proof (entry_checked m _ Hs) as K. unfold entry_ok in K.
  repeat (apply andb_true_iff in K; destruct K as [K ?]).
  apply Z.leb_le in H1. apply Z.ltb_lt in H0.
  assert (Q1 : 1 <= 1000 / _period e) by (apply Z.div_le_lower_bound; lia).
  assert (Q2 : 1000 / _period e <= 1000) by (apply Z.div_le_upper_bound; lia).
  unfold is_uint8 at 3.
  split; [exact PA|]. split; [exact PB|]. split; [lia|]. split; [lia|].
  split; [lia|]. split; [exact Hc|]. split; [exact Hv | exact Ht].
Qed.

Lemma fields_stay_in_range_witness :
  reachable FullStep after_fast_turns /\
  1 <= _period after_fast_turns <= 1000 /\
  1 <= 1000 / _period after_fast_turns <= 1000.
Proof.
  assert (R : reachable FullStep after_fast_turns).
  { apply (reachable_reads FullStep fast_turns (setPeriod (new 2 3) 1) _
             (concat (repeat [DIR_NONE; DIR_NONE; DIR_NONE; DIR_CW] 66))).
    - apply reach_setPeriod; [constructor|]; unfold is_uint8, is_uint16; lia.
    - unfold fast_turns. apply Forall_concat, Forall_forall.
      intros l Hl. apply repeat_spec in Hl. subst l.
      repeat constructor; unfold is_uint32; simpl; lia.
    - vm_compute. reflexivity. }
  split; [exact R|].
  destruct (fields_stay_in_range FullStep after_fast_turns R)
    as (_ & _ & _ & H1 & H2 & _).
  split; assumption.
Defined.

(** X9: a [setPeriod] between polls changes no event of the polls that
    follow, and does not restart the window: the count gathered so far is
    kept, the end of the window is still measured from the old boundary,
    and at that end the count is scaled by the factor of the window set
    last, [1000 / t]. *)
Theorem setPeriod_between_polls
        (m : step_mode) (e : MD_REncoder) (t : Z) (ins : list PollEnv) :
  reachable m e -> is_uint16 t ->
  events m (setPeriod e t) ins = events m e ins /\
  (0 < t <= 1000 ->
   forall i e' ev,
     read m (setPeriod e t) i = Some (e', ev) ->
     window_over (setPeriod e t) i = (wrap32 (millis1 i - _timeLast e) >=? t) /\
     (window_over (setPeriod e t) i = true ->
      speed e' = wrap16 (counted e ev * (1000 / t)) /\ _count e' = 0) /\
     (window_over (setPeriod e t) i = false ->
      speed e' = speed e /\ _count e' = counted e ev)).
Proof.
  intros He Ht. split.
  - apply events_same_node.
    + apply reachable_decodable, reach_setPeriod; assumption.
    + apply reachable_decodable, He.
    + unfold node, setPeriod.
      destruct (negb (t =? 0) && (t <=? 1000)); reflexivity.
  - intros Hv i e' ev Hr.
    assert (E : setPeriod e t
                = {| _pinA := _pinA e; _pinB := _pinB e; _state := _state e;
                     _period := t; _count := _count e; _spd := _spd e;
                     _timeLast := _timeLast e |}).
    { unfold setPeriod.
      destruct (Z.eqb_spec t 0); [lia|].
      destruct (Z.leb_spec t 1000); [reflexivity | lia]. }
    rewrite E in *. split; [reflexivity|]. split; intros Hw.
    + destruct (read_window_over _ _ _ _ _ Hw Hr) as (Hs & Hc & _).
      split; assumption.
    + destruct (read_window_open _ _ _ _ _ Hw Hr) as (Hs & Hc & _).
      split; assumption.
Qed.

Lemma setPeriod_between_polls_witness :
  reachable FullStep after_three_turns /\ is_uint16 250 /\
  events FullStep (setPeriod after_three_turns 250) [s01 300 300; s00 310 310]
    = events FullStep after_three_turns [s01 300 300; s00 310 310] /\
  read FullStep (setPeriod after_three_turns 250) (s11 250 250)
    = Some ({| _pinA := 2; _pinB := 3; _state := R_START; _period := 250;
               _count := 0; _spd := 12; _timeLast := 250 |}, DIR_NONE) /\
  speed {| _pinA := 2; _pinB := 3; _state := R_START; _period := 250;
           _count := 0; _spd := 12; _timeLast := 250 |}
    = wrap16 (counted after_three_turns DIR_NONE * (1000 / 250)).
Proof.
  assert (R : reachable FullStep after_three_turns).
  { apply (reachable_reads FullStep three_turns (new 2 3) _
             [DIR_NONE; DIR_NONE; DIR_NONE; DIR_CW;
              DIR_NONE; DIR_NONE; DIR_NONE; DIR_CW;
              DIR_NONE; DIR_NONE; DIR_NONE; DIR_CW]).
    - constructor; unfold is_uint8; lia.
    - repeat constructor; unfold is_uint32; simpl; lia.
    - vm_compute. reflexivity. }
  assert (U : is_uint16 250) by (unfold is_uint16; lia).
  destruct (setPeriod_between_polls FullStep after_three_turns 250
              [s01 300 300; s00 310 310] R U) as [H1 H2].
  split; [exact R|]. split; [exact U|]. split; [exact H1|].
  split; [vm_compute; reflexivity|].
  refine (proj1 (proj1 (proj2 (H2 _ (s11 250 250) _ DIR_NONE _)) _)).
  - lia.
  - vm_compute. reflexivity.
  - vm_compute. reflexivity.
Defined.

(** X10: the polls that fall inside the window leave [speed()], the
    window and its boundary as they were; they only add their events to the
    count, in 16 bits.  The rate changes at the end of a window and nowhere
    else. *)
Theorem rate_changes_only_at_window_end
        (m : step_mode) (e e1 : MD_REncoder) (ins : list PollEnv) (evs : list Z) :
  reachable m e ->
  within m e ins ->
  reads m e ins = Some (e1, evs) ->
  speed e1 = speed e /\ _timeLast e1 = _timeLast e /\
  _period e1 = _period e /\
  _count e1 = wrap16 (_count e + clicks evs).
Proof.
  intros He Hw Hr.
  pose proof (reachable_wf _ _ He) as [_ _ Hc _ _].
  destruct (reads_within m ins e e1 evs Hc Hw Hr) as (H1 & H2 & H3 & H4).
  unfold speed. auto.
Qed.

Lemma rate_changes_only_at_window_end_witness :
  reachable FullStep after_first_window /\
  within FullStep after_first_window [s01 600 600; s00 700 700; s10 800 800;
                                      s11 999 999] /\
  reads FullStep after_first_window [s01 600 600; s00 700 700; s10 800 800;
                                     s11 999 999]
    = Some ({| _pinA := 2; _pinB := 3; _state := Z.lor R_START DIR_CW;
               _period := 500; _count := 1; _spd := 6; _timeLast := 500 |},
            [DIR_NONE; DIR_NONE; DIR_NONE; DIR_CW]) /\
  speed {| _pinA := 2; _pinB := 3; _state := Z.lor R_START DIR_CW;
           _period := 500; _count := 1; _spd := 6; _timeLast := 500 |}
    = speed after_first_window.
Proof.
  assert (R : reachable FullStep after_first_window).
  { apply (reachable_reads FullStep (three_turns ++ [s11 500 500]) (new 2 3) _
             [DIR_NONE; DIR_NONE; DIR_NONE; DIR_CW;
              DIR_NONE; DIR_NONE; DIR_NONE; DIR_CW;
              DIR_NONE; DIR_NONE; DIR_NONE; DIR_CW; DIR_NONE]).
    - constructor; unfold is_uint8; lia.
    - repeat constructor; unfold is_uint32; simpl; lia.
    - vm_compute. reflexivity. }
  assert (W : within FullStep after_first_window
                [s01 600 600; s00 700 700; s10 800 800; s11 999 999])
    by (vm_compute; repeat split).
  split; [exact R|]. split; [exact W|]. split; [vm_compute; reflexivity|].
  refine (proj1 (rate_changes_only_at_window_end FullStep after_first_window
                   _ _ _ R W _)).
  vm_compute. reflexivity.
Defined.

(** X11: the test at the end of the window survives the roll-over of
    [millis()]: when [d] milliseconds (less than 2^32) have really passed
    since the last boundary and the 32-bit clock shows the wrapped sum, the
    test is exactly [d >= window]. *)
Theorem window_test_survives_rollover
        (e : MD_REncoder) (i : PollEnv) (d : Z) :
  0 <= d < 2 ^ 32 ->
  millis1 i = wrap32 (_timeLast e + d) ->
  window_over e i = (d >=? _period e).
Proof.
  intros Hd Hm.
  unfold window_over. rewrite Hm. unfold wrap32.
  rewrite Zminus_mod_idemp_l.
  replace (_timeLast e + d - _timeLast e) with d by lia.
  rewrite Z.mod_small by exact Hd. reflexivity.
Qed.

Lemma window_test_survives_rollover_witness :
  reachable FullStep before_rollover /\
  0 <= 500 < 2 ^ 32 /\
  millis1 (s11 400 400) = wrap32 (_timeLast before_rollover + 500) /\
  window_over before_rollover (s11 400 400) = (500 >=? _period before_rollover).
Proof.
  assert (R : reachable FullStep before_rollover).
  { apply (reach_read FullStep (new 2 3)
             (s11 (2 ^ 32 - 100) (2 ^ 32 - 100)) before_rollover DIR_NONE).
    - constructor; unfold is_uint8; lia.
    - unfold is_uint32; simpl; lia.
    - unfold is_uint32; simpl; lia.
    - vm_compute. reflexivity. }
  assert (D : 0 <= 500 < 2 ^ 32) by lia.
  assert (M : millis1 (s11 400 400) = wrap32 (_timeLast before_rollover + 500))
    by (vm_compute; reflexivity).
  split; [exact R|]. split; [exact D|]. split; [exact M|].
  exact (window_test_survives_rollover before_rollover (s11 400 400) 500 D M).
Defined.

(** * The polling sketch *)

Lemma tally_app (a b : list SerialItem) : tally (a ++ b) = tally a + tally b.
Proof.
  induction a as [|[s|n] a IH]; simpl; rewrite ?IH; lia.
Qed.

(** One pass prints the step of the event [read] returned. *)
Lemma loop_prints_the_event
      (m : step_mode) (R R1 : MD_REncoder) (i : PollEnv) (ev : Z) :
  decodable m R -> read m R i = Some (R1, ev) ->
  exists out, loop m R i = Some (R1, out) /\ tally out = direction ev /\
              (ev = DIR_NONE <-> out = []).
Proof.
  intros D Hr.
  pose proof (read_decodable _ _ _ _ _ D Hr) as [Hs _].
  destruct (read_inv _ _ _ _ _ Hr) as (_ & Hev & _).
  pose proof (entry_checked m _ Hs) as K. unfold entry_ok in K.
  repeat (apply andb_true_iff in K; destruct K as [K ?]).
  rewrite <- Hev in K. unfold loop. rewrite Hr.
  apply orb_true_iff in K. destruct K as [K|K];
    [apply orb_true_iff in K; destruct K as [K|K]|];
    apply Z.eqb_eq in K; subst ev; rewrite K; cbn [Z.eqb DIR_NONE DIR_CW DIR_CCW];
    eexists; (split; [reflexivity|]); split; try reflexivity;
    split; intros E; try reflexivity; discriminate E.
Qed.

(** The passes of the sketch print the signed sum of the events. *)
Lemma loops_tally (m : step_mode) (ins : list PollEnv) :
  forall R R' evs,
    decodable m R -> reads m R ins = Some (R', evs) ->
    exists out, loops m R ins = Some (R', out) /\ tally out = net evs.
Proof.
  induction ins as [|i ins IH]; intros R R' evs D Hr.
  - simpl in *. inversion Hr. subst. exists []. split; reflexivity.
  - cbn [reads] in Hr.
    destruct (read m R i) as [[R1 ev]|] eqn:H1; [|discriminate].
    destruct (reads m R1 ins) as [[R2 evs2]|] eqn:H2; [|discriminate].
    inversion Hr. subst R2 evs. clear Hr.
    destruct (loop_prints_the_event m R R1 i ev D H1) as (out1 & L1 & T1 & _).
    destruct (IH R1 R' evs2 (read_decodable _ _ _ _ _ D H1) H2)
      as (out2 & L2 & T2).
    exists (out1 ++ out2). cbn [loops]. rewrite L1, L2.
    split; [reflexivity|].
    rewrite tally_app, T1, T2. reflexivity.
Qed.

(** X12: the example sketch keeps count: when its [loop()] polls a clean
    signal from the start node and the signal is back at 11, the +1 and -1
    lines it has printed add up to the travel of the knob in clicks
    (quarter steps divided by 4 in full-step mode, by 2 in half-step
    mode), because they add up to the signed sum of the events [read]
    returned. *)
Theorem sketch_prints_the_net_clicks
        (m : step_mode) (R : MD_REncoder) (ins : list PollEnv) :
  reachable m R -> node R = R_START ->
  clean 3 (map pinstate ins) ->
  last (map pinstate ins) 3 = 3 ->
  exists R' out evs,
    loops m R ins = Some (R', out) /\
    reads m R ins = Some (R', evs) /\
    tally out = net evs /\
    steps_per_click m * tally out = travel 3 (map pinstate ins).
Proof.
  intros He Hn Hc Hl.
  destruct (counts_turns m R ins He Hn Hc) as (R' & evs & Hr & _ & Hin & B & L).
  destruct (loops_tally m ins R R' evs (reachable_decodable _ _ He) Hr)
    as (out & Ho & Ht).
  exists R', out, evs. repeat split; auto.
  pose proof (offset_bounds m _ Hin) as O. unfold offset_ok in O.
  repeat (apply andb_true_iff in O; destruct O as [O ?]).
  rewrite Hl in L. rewrite <- L in *. cbn [Z.eqb Pos.eqb] in *.
  rewrite Ht. lia.
Qed.

Lemma sketch_prints_the_net_clicks_witness :
  reachable FullStep (new 2 3) /\ node (new 2 3) = R_START /\
  clean 3 (map pinstate turn_and_wiggle) /\
  last (map pinstate turn_and_wiggle) 3 = 3 /\
  exists R' out evs,
    loops FullStep (new 2 3) turn_and_wiggle = Some (R', out) /\
    reads FullStep (new 2 3) turn_and_wiggle = Some (R', evs) /\
    tally out = net evs /\
    steps_per_click FullStep * tally out
    = travel 3 (map pinstate turn_and_wiggle).
Proof.
  assert (R : reachable FullStep (new 2 3))
    by (constructor; unfold is_uint8; lia).
  assert (C : clean 3 (map pinstate turn_and_wiggle))
    by (cbv; repeat split; intros H; discriminate H).
  split; [exact R|]. split; [reflexivity|]. split; [exact C|].
  split; [reflexivity|].
  exact (sketch_prints_the_net_clicks FullStep (new 2 3) turn_and_wiggle
           R eq_refl C eq_refl).
Defined.
